(** * YouTube caption service: chunker, paginator, extractor, selector

    A shallow embedding of [main.py] (the FastAPI service) and of the
    helper functions of [sample/sample_func.py] (the Azure Function
    sample), with the properties the specification states about them.

    Conventions.
    - A Python [str] is a [string]: a sequence of characters, sliced and
      measured by character position.
    - A Python [int] is a [Z]; an [Optional[int]] is an [option Z].
    - A Python call that may raise is a [result]; the handler, which also
      talks to the transcript service, runs in the monad [M] that threads
      the log of service calls.
    - The transcript service (the [youtube_transcript_api] package) and
      [urllib.parse] are collaborators: their objects are records whose
      fields hold what each method returns or raises. *)

From stdpp Require Import base option list strings gmap.
From Stdlib Require Import ZArith Lia Ascii.

Local Open Scope Z_scope.

(** ** Exceptions and results *)

(** The exception classes the handler distinguishes.  [ValueError] stands
    for any instance of [ValueError] and [OtherException] for any other
    exception (a [TypeError], a network error, ...); both carry what
    [str(e)] returns, which the handler copies into its response.  The
    three exceptions of the transcript service are answered with a fixed
    text, so their message is left out. *)
Inductive exn : Type :=
  | HTTPException (status_code : Z) (detail : string)
  | VideoUnavailable
  | TranscriptsDisabled
  | NoTranscriptFound
  | ValueError (msg : string)
  | OtherException (msg : string).

Inductive result (A : Type) : Type :=
  | Ok (a : A)
  | Raise (e : exn).
Arguments Ok {A} a.
Arguments Raise {A} e.

#[global] Instance result_ret : MRet result := fun A a => Ok a.
#[global] Instance result_bind : MBind result := fun A B f m =>
  match m with
  | Ok a => f a
  | Raise e => Raise e
  end.

#[global] Instance result_fmap : FMap result := fun A B f m =>
  match m with
  | Ok a => Ok (f a)
  | Raise e => Raise e
  end.

(** [try: body / except Exception: handler], and the bare [except:];
    every [exn] above is an [Exception]. *)
Definition try_except {A} (body : result A) (handler : exn -> result A)
  : result A :=
  match body with
  | Ok a => Ok a
  | Raise e => handler e
  end.

(** [try: body / except NoTranscriptFound: handler] *)
Definition try_except_NoTranscriptFound {A} (body handler : result A)
  : result A :=
  try_except body (fun e =>
    match e with
    | NoTranscriptFound => handler
    | _ => Raise e
    end).

Definition is_Ok {A} (r : result A) : Prop := exists a, r = Ok a.

(** ** Python built-ins used by the helpers *)

Module Py.

(** [len(s)] *)
Definition len (s : string) : Z := Z.of_nat (String.length s).

(** Truth value of a [str] and of a [list]. *)
Definition truthy_str (s : string) : bool :=
  match s with
  | EmptyString => false
  | String _ _ => true
  end.

Definition truthy_list {A} (l : list A) : bool :=
  match l with
  | [] => false
  | _ :: _ => true
  end.

Fixpoint str_take (n : nat) (s : string) : string :=
  match n, s with
  | O, _ => EmptyString
  | S _, EmptyString => EmptyString
  | S n', String c s' => String c (str_take n' s')
  end.

Fixpoint str_drop (n : nat) (s : string) : string :=
  match n, s with
  | O, _ => s
  | S _, EmptyString => EmptyString
  | S n', String _ s' => str_drop n' s'
  end.

(** How a slice bound is normalised against a sequence of length [n]:
    a negative bound counts from the end, and both are clamped to
    [0 .. n]. *)
Definition slice_index (n i : Z) : Z :=
  if i <? 0 then Z.max 0 (i + n) else Z.min i n.

(** [s[i:j]] on a [str] *)
Definition str_slice (s : string) (i j : Z) : string :=
  let lo := slice_index (len s) i in
  let hi := slice_index (len s) j in
  str_take (Z.to_nat (hi - lo)) (str_drop (Z.to_nat lo) s).

(** [l[i:j]] on a [list] *)
Definition slice {A} (l : list A) (i j : Z) : list A :=
  let n := Z.of_nat (length l) in
  let lo := slice_index n i in
  let hi := slice_index n j in
  take (Z.to_nat (hi - lo)) (drop (Z.to_nat lo) l).

(** Number of items of [range(start, stop, step)], [step] not 0. *)
Definition range_len (start stop step : Z) : Z :=
  if (0 <? step) && (start <? stop) then (stop - start - 1) / step + 1
  else if (step <? 0) && (stop <? start)
       then (start - stop - 1) / (- step) + 1
       else 0.

(** [range(start, stop, step)], as the list of its items. *)
Definition range (start stop step : Z) : result (list Z) :=
  if step =? 0 then Raise (ValueError "range() arg 3 must not be zero")
  else Ok ((fun k => start + Z.of_nat k * step)
             <$> seq 0 (Z.to_nat (range_len start stop step))).

(** [enumerate(l)] *)
Definition enumerate {A} (l : list A) : list (Z * A) :=
  imap (fun i x => (Z.of_nat i, x)) l.

(** [sep.join(parts)] *)
Fixpoint join (sep : string) (parts : list string) : string :=
  match parts with
  | [] => ""
  | [p] => p
  | p :: rest => p +:+ sep +:+ join sep rest
  end.

(** [s.lstrip(c)] for a one-character argument: drops every leading
    [c]. *)
Fixpoint lstrip (c : ascii) (s : string) : string :=
  match s with
  | EmptyString => EmptyString
  | String a s' => if decide (a = c) then lstrip c s' else s
  end.

(** ["".join(parts)] *)
Definition concat (parts : list string) : string :=
  foldr String.app "" parts.

End Py.

(** ** Chunks and pages *)

Record Chunk : Type := mkChunk { index : Z; text : string }.

Record Page : Type := mkPage {
  chunks : list Chunk;
  next_index : option Z;
  total_chunks : Z
}.

(** ** Collaborators *)

(** What [urllib.parse.urlparse] returns, as far as the extractor reads
    it. *)
Record ParseResult : Type := mkParseResult {
  hostname : option string;
  path : string;
  query : string
}.

Record Snippet : Type := mkSnippet { snippet_text : string }.

(** A fetched transcript: iterating it yields its snippets. *)
Record FetchedTranscript : Type := mkFetched {
  snippets : list Snippet;
  fetched_language : string;
  fetched_language_code : string;
  fetched_is_generated : bool
}.

Record TranslationLanguage : Type := mkTranslationLanguage {
  translation_language : string;
  translation_language_code : string
}.

(** A transcript variant.  [fetch] and [translate] hold what the methods
    of that name return or raise. *)
#[local] Unset Elimination Schemes.
Inductive Transcript : Type := mkTranscript {
  language : string;
  language_code : string;
  is_generated : bool;
  is_translatable : bool;
  translation_languages : list TranslationLanguage;
  fetch : result FetchedTranscript;
  translate : string -> result Transcript
}.
#[local] Set Elimination Schemes.

(** What iterating an object does: it yields some items, then stops or
    raises. *)
Record Iteration (A : Type) : Type := mkIteration {
  yielded : list A;
  raised : option exn
}.
Arguments mkIteration {A} yielded raised.
Arguments yielded {A} i.
Arguments raised {A} i.

(** The transcript list of a video: [transcripts] is what [for t in
    transcript_list] does, each time it is run. *)
Record TranscriptList : Type := mkTranscriptList {
  transcripts : Iteration Transcript;
  find_transcript : list string -> result Transcript;
  find_manually_created_transcript : list string -> result Transcript;
  find_generated_transcript : list string -> result Transcript
}.

(** [for x in it: if p(x): found = x; break], with [found] initially
    [None]. *)
Definition first_such {A} (p : A -> bool) (it : Iteration A)
  : result (option A) :=
  match List.find p (yielded it) with
  | Some x => Ok (Some x)
  | None =>
      match raised it with
      | Some e => Raise e
      | None => Ok None
      end
  end.

(** [for x in it: ...] run to the end. *)
Definition iterate {A} (it : Iteration A) : result (list A) :=
  match raised it with
  | Some e => Raise e
  | None => Ok (yielded it)
  end.

(** ** The handler's monad: exceptions and the log of service calls *)

Inductive Event : Type :=
  | CallList (video_id : string)
  | CallTranslate (code : string)
  | CallFetch.

Definition M (A : Type) : Type := list Event -> result A * list Event.

#[global] Instance M_ret : MRet M := fun A a log => (Ok a, log).
#[global] Instance M_bind : MBind M := fun A B f m log =>
  match m log with
  | (Ok a, log') => f a log'
  | (Raise e, log') => (Raise e, log')
  end.

(** A computation that calls no service. *)
Definition lift {A} (r : result A) : M A := fun log => (r, log).

(** A service call: it is logged, then returns or raises. *)
Definition call {A} (ev : Event) (r : result A) : M A :=
  fun log => (r, log ++ [ev]).

Definition raise {A} (e : exn) : M A := lift (Raise e).

(** [try: body / except: handler e] *)
Definition catch {A} (body : M A) (handler : exn -> M A) : M A :=
  fun log =>
    match body log with
    | (Ok a, log') => (Ok a, log')
    | (Raise e, log') => handler e log'
    end.

(** [try: body / except NoTranscriptFound: handler] *)
Definition catch_NoTranscriptFound {A} (body : M A) (handler : M A) : M A :=
  catch body (fun e =>
    match e with
    | NoTranscriptFound => handler
    | _ => raise e
    end).

Definition outcome {A} (m : M A) : result A := fst (m []).
Definition calls {A} (m : M A) : list Event := snd (m []).

(** ** The response *)

Record LangInfo : Type := mkLangInfo {
  info_language : string;
  info_language_code : string;
  info_is_generated : bool;
  info_is_translatable : bool;
  info_translation_languages : option (list string)
}.

Record Payload : Type := mkPayload {
  video_id : string;
  total_characters : Z;
  selected_language : string;
  selected_language_code : string;
  payload_is_generated : bool;
  available_languages : list LangInfo;
  page_data : Page
}.

(** [CaptionRequest], main.py lines 60-65. *)
Record CaptionRequest : Type := mkRequest {
  url : string;
  chunk_size : option Z;
  max_chunks : option Z;
  start_index : option Z;
  language_param : option (string + list string)
}.

(** ** main.py *)

Module Main.

(** [chunk_text], lines 83-91. *)
Definition chunk_text (text : string) (size : Z) : result (list Chunk) :=
  if negb (Py.truthy_str text) || (size <=? 0) then Ok []
  else
    starts ← Py.range 0 (Py.len text) size;
    Ok ((fun '(idx, i) => mkChunk idx (Py.str_slice text i (i + size)))
          <$> Py.enumerate starts).

(** [paginate_chunks], lines 93-103. *)
Definition paginate_chunks (chunks : list Chunk) (start max_chunks : Z)
  : Page :=
  if negb (Py.truthy_list chunks) then mkPage [] None 0
  else
    let total := Z.of_nat (length chunks) in
    let start := Z.max 0 start in
    let end_ := Z.min (start + max_chunks) total in
    let page := Py.slice chunks start end_ in
    let next_index := if end_ <? total then Some end_ else None in
    mkPage page next_index total.

(** The two calls of lines 219 and 222 receive [Optional[int]] fields
    of the request.  With [None] in place of an [int], the comparison
    [size <= 0], the call [max(0, start)] and the sum
    [start + max_chunks] raise a [TypeError], each only when the code
    reaches it. *)
Definition chunk_text_opt (text : string) (size : option Z)
  : result (list Chunk) :=
  match size with
  | Some size => chunk_text text size
  | None =>
      if negb (Py.truthy_str text) then Ok []
      else Raise (OtherException
        "'<=' not supported between instances of 'NoneType' and 'int'")
  end.

Definition paginate_chunks_opt (chunks : list Chunk)
    (start max_chunks : option Z) : result Page :=
  if negb (Py.truthy_list chunks) then Ok (mkPage [] None 0)
  else
    match start, max_chunks with
    | Some start, Some max_chunks =>
        Ok (paginate_chunks chunks start max_chunks)
    | None, _ => Raise (OtherException
        "'>' not supported between instances of 'NoneType' and 'int'")
    | Some _, None => Raise (OtherException
        "unsupported operand type(s) for +: 'int' and 'NoneType'")
    end.

Section Service.

(** [urllib.parse.urlparse] and [urllib.parse.parse_qs]. *)
Variable urlparse : string -> result ParseResult.
Variable parse_qs : string -> result (gmap string (list string)).

(** [ytt_api.list], for the API object the handler builds at
    lines 126-143. *)
Variable ytt_list : string -> result TranscriptList.

(** [extract_video_id], lines 67-81.  The argument is [None] when
    the caller passes [None] for the URL. *)
Definition extract_video_id (url : option string)
  : result (option string) :=
  match url with
  | None | Some EmptyString => Ok None
  | Some url =>
      try_except
        (parsed ← urlparse url;
         if bool_decide (hostname parsed = Some "youtu.be")
         then Ok (Some (Py.lstrip "/" (path parsed)))
         else if bool_decide (hostname parsed = Some "www.youtube.com")
                 || bool_decide (hostname parsed = Some "youtube.com")
         then
           params ← parse_qs (query parsed);
           match params !! "v" with
           | None => Ok None
           | Some [] =>
               Raise (OtherException "list index out of range")
           | Some (v :: _) => Ok (Some v)
           end
         else Ok None)
        (fun _ => Ok None)
  end.

(** Lines 149-174: the caller named the languages
    [r0 :: rest] (a single code [r0] is the list [[r0]]). *)
Definition translatable_into (code : string) (t : Transcript) : bool :=
  is_translatable t
  && bool_decide
       (code ∈ translation_language_code <$> translation_languages t).

Definition select_requested (transcript_list : TranscriptList)
    (r0 : string) (rest : list string) : M Transcript :=
  let requested_languages := r0 :: rest in
  catch_NoTranscriptFound
    (lift (find_transcript transcript_list requested_languages))
    (catch
       (available_transcript ←
          lift (first_such (translatable_into r0)
                  (transcripts transcript_list));
        match available_transcript with
        | Some t => call (CallTranslate r0) (translate t r0)
        | None => raise NoTranscriptFound
        end)
       (fun _ => raise NoTranscriptFound)).

(** Lines 175-212: no language named.  Nothing here calls the
    service: the lookups and the loops read the transcript list. *)
Definition select_default (transcript_list : TranscriptList)
  : result Transcript :=
  transcript ←
    try_except_NoTranscriptFound
      (Some <$> find_manually_created_transcript transcript_list ["en"])
      (try_except
         (first_such (fun t => negb (is_generated t))
            (transcripts transcript_list))
         (fun _ => Ok None));
  transcript ←
    match transcript with
    | Some t => Ok (Some t)
    | None =>
        transcript ←
          try_except_NoTranscriptFound
            (Some <$> find_generated_transcript transcript_list ["en"])
            (first_such is_generated (transcripts transcript_list));
        match transcript with
        | Some t => Ok (Some t)
        | None =>
            first_such (fun _ => true) (transcripts transcript_list)
        end
    end;
  match transcript with
  | Some t => Ok t
  | None => Raise NoTranscriptFound
  end.

(** Line 149: [if languages_param:]. *)
Definition select_transcript (transcript_list : TranscriptList)
    (languages_param : option (string + list string)) : M Transcript :=
  match languages_param with
  | Some (inl (String c s)) =>
      select_requested transcript_list (String c s) []
  | Some (inr (r0 :: rest)) =>
      select_requested transcript_list r0 rest
  | _ => lift (select_default transcript_list)
  end.

(** Lines 226-235. *)
Definition lang_info (t : Transcript) : LangInfo :=
  mkLangInfo (language t) (language_code t) (is_generated t)
    (is_translatable t)
    (if is_translatable t
     then Some (translation_language_code <$> translation_languages t)
     else None).

(** Lines 217-248: from the fetched transcript to the payload. *)
Definition assemble (request : CaptionRequest) (video_id : string)
    (transcript_list : TranscriptList)
    (fetched_transcript : FetchedTranscript) : result Payload :=
  let full_text :=
    Py.join " " (snippet_text <$> snippets fetched_transcript) in
  all_chunks ← chunk_text_opt full_text (chunk_size request);
  page_data ←
    paginate_chunks_opt all_chunks
      (start_index request) (max_chunks request);
  ts ← iterate (transcripts transcript_list);
  Ok (mkPayload video_id (Py.len full_text)
        (fetched_language fetched_transcript)
        (fetched_language_code fetched_transcript)
        (fetched_is_generated fetched_transcript)
        (lang_info <$> ts)
        page_data).

(** Lines 116-248: the body of the [try]. *)
Definition body (request : CaptionRequest) : M Payload :=
  video_id ← lift (extract_video_id (Some (url request)));
  match video_id with
  | None | Some EmptyString =>
      raise (HTTPException 400 "Invalid YouTube URL.")
  | Some video_id =>
      transcript_list ← call (CallList video_id) (ytt_list video_id);
      transcript ←
        select_transcript transcript_list (language_param request);
      fetched_transcript ← call CallFetch (fetch transcript);
      lift (assemble request video_id transcript_list
              fetched_transcript)
  end.

(** Lines 250-270: the [except] clauses, tried in order. *)
Definition on_exception (e : exn) : exn :=
  match e with
  | HTTPException status_code detail => HTTPException status_code detail
  | VideoUnavailable =>
      HTTPException 404 "Video is unavailable or private."
  | TranscriptsDisabled =>
      HTTPException 403 "Transcripts are disabled for this video."
  | NoTranscriptFound =>
      HTTPException 404
        "No transcript available for this video in the requested language(s)."
  | ValueError msg =>
      HTTPException 400 ("Invalid parameter value: " +:+ msg)
  | OtherException msg =>
      HTTPException 500 ("Internal server error: " +:+ msg)
  end.

(** [get_youtube_caption], lines 111-270. *)
Definition get_youtube_caption (request : CaptionRequest) : M Payload :=
  catch (body request) (fun e => raise (on_exception e)).

End Service.

End Main.

(** ** sample/sample_func.py *)

Module Sample.

Section Extractor.

Variable urlparse : string -> result ParseResult.
Variable parse_qs : string -> result (gmap string (list string)).

(** [extract_video_id], lines 45-52: no guard on the input, no [try]. *)
Definition extract_video_id (url : string) : result (option string) :=
  parsed ← urlparse url;
  if bool_decide (hostname parsed = Some "youtu.be")
  then Ok (Some (Py.lstrip "/" (path parsed)))
  else if bool_decide (hostname parsed = Some "www.youtube.com")
          || bool_decide (hostname parsed = Some "youtube.com")
  then
    params ← parse_qs (query parsed);
    match params !! "v" with
    | None => Ok None
    | Some [] => Raise (OtherException "list index out of range")
    | Some (v :: _) => Ok (Some v)
    end
  else Ok None.

End Extractor.

(** [chunk_text], lines 55-59: no guard. *)
Definition chunk_text (text : string) (size : Z) : result (list Chunk) :=
  starts ← Py.range 0 (Py.len text) size;
  Ok ((fun '(idx, i) => mkChunk idx (Py.str_slice text i (i + size)))
        <$> Py.enumerate starts).

(** [paginate_chunks], lines 62-67: no clamp of [start], no early
    return. *)
Definition paginate_chunks (chunks : list Chunk) (start max_chunks : Z)
  : Page :=
  let total := Z.of_nat (length chunks) in
  let end_ := Z.min (start + max_chunks) total in
  let page := Py.slice chunks start end_ in
  let next_index := if end_ <? total then Some end_ else None in
  mkPage page next_index total.

End Sample.

(** ** The specification's vocabulary *)

Module Spec.

(** ceil(a / b), for a positive [b]. *)
Definition ceil_div (a b : Z) : Z := (a + b - 1) / b.

Definition is_en (t : Transcript) : bool :=
  bool_decide (language_code t = "en").

(** Section 4.2, case B, rules 1 to 5, in order. *)
Definition priority : list (Transcript -> bool) :=
  [ fun t => negb (is_generated t) && is_en t;
    fun t => negb (is_generated t);
    fun t => is_generated t && is_en t;
    is_generated;
    fun _ => true ].

(** The first variant, in enumeration order, of the first rule that
    some variant satisfies. *)
Fixpoint first_rule (rules : list (Transcript -> bool))
    (variants : list Transcript) : option Transcript :=
  match rules with
  | [] => None
  | r :: rules' =>
      match List.find r variants with
      | Some t => Some t
      | None => first_rule rules' variants
      end
  end.

(** Case B as the specification words it; rule 6 is the failure. *)
Definition select_default (variants : list Transcript)
  : result Transcript :=
  match first_rule priority variants with
  | Some t => Ok t
  | None => Raise NoTranscriptFound
  end.

(** Section 4.2, case A, step 2: a variant "that is translatable and
    whose translation-target codes include" the code. *)
Definition translates_into (code : string) (t : Transcript) : Prop :=
  is_translatable t = true
  /\ Exists (fun target => translation_language_code target = code)
       (translation_languages t).

#[global] Instance translates_into_dec code t :
  Decision (translates_into code t).
Proof. unfold translates_into. apply _. Defined.

(** Case A, steps 2 and 3, as the specification words them: the first
    such variant, in enumeration order, translated into the code; the
    failure when there is none, or when the translation gives no
    derivative. *)
Definition select_by_translation (code : string)
    (variants : list Transcript) : result Transcript :=
  match List.find (fun t => bool_decide (translates_into code t))
          variants with
  | Some t =>
      match translate t code with
      | Ok derivative => Ok derivative
      | Raise _ => Raise NoTranscriptFound
      end
  | None => Raise NoTranscriptFound
  end.


(** The page ends just before position [i]: it holds the chunks at
    positions [s], ..., [i - 1] of [cs], and position [i] exists. *)
Definition ends_before (cs page : list Chunk) (s i : Z) : Prop :=
  0 <= s <= i /\ i < Z.of_nat (length cs)
  /\ page = take (Z.to_nat (i - s)) (drop (Z.to_nat s) cs).

(** Section 4.4 on [next_index], read with the [start] the caller
    passed: present exactly when [start + max_chunks < total], and then
    [min(start + max_chunks, total)], the position of the first chunk
    after the page. *)
Definition next_index_as_stated
    (paginate : list Chunk -> Z -> Z -> Page)
    (cs : list Chunk) (start max_chunks : Z) : Prop :=
  let p := paginate cs start max_chunks in
  let total := Z.of_nat (length cs) in
  (is_Some (next_index p) <-> start + max_chunks < total)
  /\ forall i, next_index p = Some i ->
       i = Z.min (start + max_chunks) total
       /\ exists s, ends_before cs (chunks p) s i.

(** The languages the caller named, as a list; empty when the caller
    named none. *)
Definition requested (lang : option (string + list string)) : list string :=
  match lang with
  | None => []
  | Some (inl "") => []
  | Some (inl code) => [code]
  | Some (inr codes) => codes
  end.


End Spec.

(** ** The transcript service's contract *)

Module Library.

(** The lookups of a transcript list go through the requested codes in
    order and, for each code, through the kinds of variant in order;
    the first variant of that kind and code is the answer, and
    [NoTranscriptFound] is raised when the codes are exhausted. *)
Fixpoint find_in_kinds (kinds : list (Transcript -> bool)) (code : string)
    (variants : list Transcript) : option Transcript :=
  match kinds with
  | [] => None
  | k :: kinds' =>
      match List.find
              (fun t => k t && bool_decide (language_code t = code))
              variants with
      | Some t => Some t
      | None => find_in_kinds kinds' code variants
      end
  end.

Fixpoint find_by_codes (kinds : list (Transcript -> bool))
    (codes : list string) (variants : list Transcript)
  : result Transcript :=
  match codes with
  | [] => Raise NoTranscriptFound
  | c :: codes' =>
      match find_in_kinds kinds c variants with
      | Some t => Ok t
      | None => find_by_codes kinds codes' variants
      end
  end.

Definition manual (t : Transcript) : bool := negb (is_generated t).
Definition generated (t : Transcript) : bool := is_generated t.

(** [serves tl variants]: the list [tl] enumerates [variants] without
    raising, and its three lookups answer from them: manually created
    before generated for [find_transcript]. *)
Record serves (tl : TranscriptList) (variants : list Transcript)
  : Prop := {
  serves_iter : transcripts tl = mkIteration variants None;
  serves_find : forall codes,
    find_transcript tl codes
    = find_by_codes [manual; generated] codes variants;
  serves_manual : forall codes,
    find_manually_created_transcript tl codes
    = find_by_codes [manual] codes variants;
  serves_generated : forall codes,
    find_generated_transcript tl codes
    = find_by_codes [generated] codes variants
}.

(** The transcript list that serves [variants]. *)
Definition transcript_list_of (variants : list Transcript)
  : TranscriptList :=
  mkTranscriptList (mkIteration variants None)
    (fun codes => find_by_codes [manual; generated] codes variants)
    (fun codes => find_by_codes [manual] codes variants)
    (fun codes => find_by_codes [generated] codes variants).

End Library.

(** ** Test doubles, after the mocks of the repository's test suite *)

Module Stub.

Definition not_translatable (_ : string) : result Transcript :=
  Raise (OtherException "not translatable").

(** Scenario 4: a Spanish auto-generated variant. *)
Definition spanish_auto : Transcript :=
  mkTranscript "Spanish" "es" true false []
    (Ok (mkFetched [mkSnippet "Hola mundo"] "Spanish" "es" true))
    not_translatable.

(** Scenario 5: a Vietnamese variant, translatable into English. *)
Definition english_derivative : Transcript :=
  mkTranscript "English (auto-translated)" "en" true false []
    (Ok (mkFetched [mkSnippet "Hello world translated"]
           "English (auto-translated)" "en" true))
    not_translatable.

Definition vietnamese_auto : Transcript :=
  mkTranscript "Vietnamese" "vi" true true
    [mkTranslationLanguage "English" "en"]
    (Ok (mkFetched [mkSnippet "Xin chao"] "Vietnamese" "vi" true))
    (fun code => if bool_decide (code = "en") then Ok english_derivative
                 else Raise (OtherException "translation unavailable")).

(** A German variant that translates into French only, and a Korean
    one that lists English but is not translatable. *)
Definition german_manual : Transcript :=
  mkTranscript "German" "de" false true
    [mkTranslationLanguage "French" "fr"]
    (Ok (mkFetched [mkSnippet "Hallo Welt"] "German" "de" false))
    (fun _ => Raise (OtherException "translation unavailable")).

Definition korean_auto : Transcript :=
  mkTranscript "Korean" "ko" true false
    [mkTranslationLanguage "English" "en"]
    (Ok (mkFetched [mkSnippet "annyeong"] "Korean" "ko" true))
    not_translatable.

(** A variant whose translation fails on the wire. *)
Definition broken_translation : Transcript :=
  mkTranscript "Vietnamese" "vi" true true
    [mkTranslationLanguage "English" "en"]
    (Ok (mkFetched [mkSnippet "Xin chao"] "Vietnamese" "vi" true))
    (fun _ => Raise (OtherException "connection reset")).

(** The English manual variant of [test_func_ytb_caption_success]. *)
Definition english_manual : Transcript :=
  mkTranscript "English" "en" false false []
    (Ok (mkFetched [mkSnippet "Hello world"; mkSnippet "this is a test"]
           "English" "en" false))
    not_translatable.

Definition watch_url : string :=
  "https://www.youtube.com/watch?v=dQw4w9WgXcQ".
Definition short_url : string := "https://youtu.be/dQw4w9WgXcQ".

Definition urlparse (u : string) : result ParseResult :=
  if bool_decide (u = watch_url)
  then Ok (mkParseResult (Some "www.youtube.com") "/watch"
             "v=dQw4w9WgXcQ")
  else if bool_decide (u = short_url)
  then Ok (mkParseResult (Some "youtu.be") "/dQw4w9WgXcQ" "")
  else if bool_decide (u = "http://[")
  then Raise (ValueError "Invalid IPv6 URL")
  else Ok (mkParseResult (Some "example.com") "/video" "").

Definition parse_qs (q : string) : result (gmap string (list string)) :=
  if bool_decide (q = "v=dQw4w9WgXcQ")
  then Ok {[ "v" := ["dQw4w9WgXcQ"] ]}
  else Ok ∅.

(** A service that has the given variants for every video. *)
Definition ytt_list (variants : list Transcript) (_ : string)
  : result TranscriptList :=
  Ok (Library.transcript_list_of variants).

Definition request (lang : option (string + list string))
  : CaptionRequest :=
  mkRequest watch_url (Some 10) (Some 2) (Some 0) lang.

End Stub.

(** * Properties *)

(** ** Strings and slices *)

Section Strings.

Local Open Scope nat_scope.

Lemma str_take_drop n s : Py.str_take n s +:+ Py.str_drop n s = s.
Proof.
  revert s; induction n as [|n IH]; intros [|c s]; simpl; try done.
  unfold String.app; simpl. f_equal. apply IH.
Qed.

Lemma length_str_drop n s :
  String.length (Py.str_drop n s) = String.length s - n.
Proof.
  revert s; induction n as [|n IH]; intros [|c s]; simpl; try lia.
  apply IH.
Qed.

Lemma str_drop_drop n m s :
  Py.str_drop m (Py.str_drop n s) = Py.str_drop (n + m) s.
Proof.
  revert s; induction n as [|n IH]; intros [|c s]; simpl; try done.
  by destruct m.
Qed.

Lemma str_take_min n s :
  Py.str_take (n `min` String.length s) s = Py.str_take n s.
Proof.
  revert s; induction n as [|n IH]; intros [|c s]; simpl; try done.
  f_equal. apply IH.
Qed.

Lemma str_length_0 s : String.length s = 0 -> s = "".
Proof. by destruct s. Qed.

Lemma length_app s1 s2 :
  String.length (s1 +:+ s2) = String.length s1 + String.length s2.
Proof.
  induction s1 as [|c s1 IH]; [done|].
  unfold String.app in *; simpl. by rewrite IH.
Qed.

(** Consecutive slices of width [w] that reach the end of [s] give [s]
    back. *)
Lemma concat_slices w s n :
  0 < w -> String.length s <= n * w ->
  Py.concat
    ((fun k => Py.str_take w (Py.str_drop (k * w) s)) <$> seq 0 n) = s.
Proof.
  intros Hw. revert s. induction n as [|n IH]; intros s Hlen.
  - simpl in *. symmetry. apply str_length_0. lia.
  - rewrite <- cons_seq, <- fmap_S_seq, fmap_cons, <- list_fmap_compose.
    unfold Py.concat; simpl foldr.
    transitivity (Py.str_take w s +:+ Py.str_drop w s);
      [|apply str_take_drop].
    f_equal. rewrite <- (IH (Py.str_drop w s)) at 1.
    + unfold Py.concat. f_equal. apply list_fmap_ext. intros _ k _. simpl.
      by rewrite str_drop_drop.
    + rewrite length_str_drop. lia.
Qed.

End Strings.

(** ** The chunker *)

Section Chunker.

Lemma ceil_div_spec a b :
  0 < b -> b * (Spec.ceil_div a b - 1) < a <= b * Spec.ceil_div a b.
Proof.
  intros Hb. unfold Spec.ceil_div.
  replace (a + b - 1) with (a - 1 + 1 * b) by lia.
  rewrite Z.div_add by lia.
  pose proof (Z.mul_div_le (a - 1) b Hb).
  pose proof (Z.mul_succ_div_gt (a - 1) b Hb). lia.
Qed.

Lemma range_len_from_0 stop step :
  0 <= stop -> 0 < step ->
  Py.range_len 0 stop step = Spec.ceil_div stop step.
Proof.
  intros Hstop Hstep. unfold Py.range_len, Spec.ceil_div.
  replace (0 <? step) with true by (symmetry; apply Z.ltb_lt; lia).
  simpl. destruct (Z.ltb_spec 0 stop).
  - replace (stop + step - 1) with (stop - 1 + 1 * step) by lia.
    rewrite Z.div_add by lia. f_equal. f_equal. lia.
  - replace (step <? 0) with false by (symmetry; apply Z.ltb_ge; lia).
    simpl. replace stop with 0 by lia. symmetry.
    apply Z.div_small. lia.
Qed.

Lemma str_slice_window s i w :
  0 <= i -> 0 <= w ->
  Py.str_slice s i (i + w)
  = Py.str_take (Z.to_nat w) (Py.str_drop (Z.to_nat i) s).
Proof.
  intros Hi Hw. unfold Py.str_slice, Py.slice_index, Py.len.
  replace (i <? 0) with false by (symmetry; apply Z.ltb_ge; lia).
  replace (i + w <? 0) with false by (symmetry; apply Z.ltb_ge; lia).
  set (n := String.length s).
  destruct (Z.le_gt_cases i (Z.of_nat n)) as [Hin|Hin].
  - rewrite (Z.min_l i) by lia.
    rewrite <- (str_take_min (Z.to_nat w)), length_str_drop. fold n.
    f_equal. lia.
  - rewrite !Z.min_r by lia. rewrite Z.sub_diag. simpl.
    assert (Hnil : Py.str_drop (Z.to_nat i) s = "").
    { apply str_length_0. rewrite length_str_drop. fold n. lia. }
    rewrite Hnil. by destruct (Z.to_nat w).
Qed.

Lemma enumerate_fmap_seq {A} (g : nat -> A) n :
  Py.enumerate (g <$> seq 0 n) = (fun k => (Z.of_nat k, g k)) <$> seq 0 n.
Proof.
  unfold Py.enumerate. apply list_eq. intros i.
  rewrite list_lookup_imap, !list_lookup_fmap.
  destruct (seq 0 n !! i) as [j|] eqn:Hj; [|done].
  apply lookup_seq in Hj as [-> _]. done.
Qed.

(** The comprehension of [chunk_text], once the guard is passed. *)
Lemma chunks_of_positive text size :
  0 < size ->
  (starts ← Py.range 0 (Py.len text) size;
   Ok ((fun '(idx, i) => mkChunk idx (Py.str_slice text i (i + size)))
         <$> Py.enumerate starts))
  = Ok ((fun k => mkChunk (Z.of_nat k)
                    (Py.str_take (Z.to_nat size)
                       (Py.str_drop (k * Z.to_nat size) text)))
          <$> seq 0 (Z.to_nat (Spec.ceil_div (Py.len text) size))).
Proof.
  intros Hsize. unfold Py.range.
  replace (size =? 0) with false by (symmetry; apply Z.eqb_neq; lia).
  rewrite range_len_from_0 by (unfold Py.len; lia).
  simpl. f_equal. rewrite enumerate_fmap_seq, <- list_fmap_compose.
  apply list_fmap_ext. intros _ k _. simpl. f_equal.
  rewrite str_slice_window by lia. f_equal. f_equal. lia.
Qed.

Lemma chunk_text_positive text size :
  text <> "" -> 0 < size ->
  Main.chunk_text text size
  = Ok ((fun k => mkChunk (Z.of_nat k)
                    (Py.str_take (Z.to_nat size)
                       (Py.str_drop (k * Z.to_nat size) text)))
          <$> seq 0 (Z.to_nat (Spec.ceil_div (Py.len text) size))).
Proof.
  intros Htext Hsize. unfold Main.chunk_text.
  destruct text as [|c text]; [done|]. simpl negb.
  replace (size <=? 0) with false by (symmetry; apply Z.leb_gt; lia).
  simpl orb. cbv iota. by apply chunks_of_positive.
Qed.

(** On a positive size the sample and the service agree. *)
Lemma sample_chunk_text_positive text size :
  text <> "" -> 0 < size ->
  Sample.chunk_text text size = Main.chunk_text text size.
Proof.
  intros Htext Hsize. rewrite chunk_text_positive by done.
  by apply chunks_of_positive.
Qed.

(** C1: for a non-empty text and a positive size, [chunk_text] returns
    chunks whose texts, concatenated in order, are the text; there are
    ceil(len(text) / size) of them; and the chunk at position [k] has
    index [k], so indices start at 0 and grow by 1.  The function of
    sample_func.py returns the same chunks. *)
Theorem chunk_text_partition (s : string) (size : Z) :
  s <> "" -> 0 < size ->
  exists cs,
    Main.chunk_text s size = Ok cs
    /\ Sample.chunk_text s size = Ok cs
    /\ Py.concat (text <$> cs) = s
    /\ Z.of_nat (length cs) = Spec.ceil_div (Py.len s) size
    /\ forall k c, cs !! k = Some c -> index c = Z.of_nat k.
Proof.
  intros Htext Hsize.
  pose proof (ceil_div_spec (Py.len s) size Hsize) as Hceil.
  assert (0 <= Spec.ceil_div (Py.len s) size) as Hpos
    by (unfold Py.len in *; nia).
  eexists. split; [by apply chunk_text_positive|].
  split; [rewrite sample_chunk_text_positive by done;
          by apply chunk_text_positive|].
  split; [|split].
  - rewrite <- list_fmap_compose.
    apply concat_slices; [lia|]. apply Nat2Z.inj_le.
    rewrite Nat2Z.inj_mul, !Z2Nat.id by lia. fold (Py.len s). lia.
  - rewrite length_fmap, length_seq. lia.
  - intros k c Hk. rewrite list_lookup_fmap in Hk.
    destruct (seq _ _ !! k) as [j|] eqn:Hj; [|done].
    apply lookup_seq in Hj as [-> _]. simpl in Hk. by inversion Hk.
Qed.

(** C1, scenario 1 of the specification. *)
Lemma chunk_text_partition_witness :
  exists cs,
    Main.chunk_text "Hello world this is a test" 10 = Ok cs
    /\ Sample.chunk_text "Hello world this is a test" 10 = Ok cs
    /\ Py.concat (text <$> cs) = "Hello world this is a test"
    /\ Z.of_nat (length cs)
       = Spec.ceil_div (Py.len "Hello world this is a test") 10
    /\ forall k c, cs !! k = Some c -> index c = Z.of_nat k.
Proof.
  apply (chunk_text_partition "Hello world this is a test" 10);
    [discriminate | lia].
Defined.

(** C6: on an empty text or a size that is not positive, [chunk_text]
    returns the empty list; and on every input it returns, never
    raises. *)
Theorem chunk_text_degenerate text size :
  (text = "" \/ size <= 0 -> Main.chunk_text text size = Ok [])
  /\ is_Ok (Main.chunk_text text size).
Proof.
  split.
  - intros [-> | Hsize]; [done|]. unfold Main.chunk_text.
    replace (size <=? 0) with true by (symmetry; apply Z.leb_le; lia).
    by rewrite orb_true_r.
  - destruct (decide (text = "")) as [-> | Htext]; [by eexists|].
    destruct (Z.le_gt_cases size 0) as [Hsize|Hsize].
    + unfold Main.chunk_text.
      replace (size <=? 0) with true by (symmetry; apply Z.leb_le; lia).
      rewrite orb_true_r. by eexists.
    + rewrite chunk_text_positive by (done || lia). by eexists.
Qed.

(** C6 at the inputs of the test suite: an empty text, a zero size, a
    negative size. *)
Lemma chunk_text_degenerate_witness :
  Main.chunk_text "" 10 = Ok []
  /\ Main.chunk_text "Hello" 0 = Ok []
  /\ Main.chunk_text "Hello" (-5) = Ok [].
Proof.
  split; [|split].
  - apply (proj1 (chunk_text_degenerate "" 10)). by left.
  - apply (proj1 (chunk_text_degenerate "Hello" 0)). right. lia.
  - apply (proj1 (chunk_text_degenerate "Hello" (-5))). right. lia.
Defined.

(** The sample has no guard: a zero size reaches [range] and raises. *)
Example sample_chunk_text_zero_size :
  Sample.chunk_text "Hello" 0
  = Raise (ValueError "range() arg 3 must not be zero").
Proof. reflexivity. Qed.

End Chunker.

(** ** The paginator *)

Section Paginator.

Lemma slice_in_range {A} (l : list A) (i j : Z) :
  0 <= i <= j -> j <= Z.of_nat (length l) ->
  Py.slice l i j = take (Z.to_nat (j - i)) (drop (Z.to_nat i) l).
Proof.
  intros Hij Hj. unfold Py.slice, Py.slice_index.
  replace (i <? 0) with false by (symmetry; apply Z.ltb_ge; lia).
  replace (j <? 0) with false by (symmetry; apply Z.ltb_ge; lia).
  by rewrite !Z.min_l by lia.
Qed.

(** C4, as amended: with [s = max(0, start)], [next_index] is present
    exactly when the sequence is not empty and [s + max_chunks < total];
    it is then [min(s + max_chunks, total)]; and for a [max_chunks] that
    is not negative the page is the chunks from position [s] up to it,
    so that it is the position of the first chunk after the page. *)
Theorem next_index_clamped (cs : list Chunk) (start max_chunks : Z) :
  let p := Main.paginate_chunks cs start max_chunks in
  let total := Z.of_nat (length cs) in
  let s := Z.max 0 start in
  (is_Some (next_index p) <-> cs <> [] /\ s + max_chunks < total)
  /\ forall i, next_index p = Some i ->
       i = Z.min (s + max_chunks) total
       /\ (0 <= max_chunks -> Spec.ends_before cs (chunks p) s i).
Proof.
  unfold Main.paginate_chunks. destruct cs as [|c cs].
  { simpl. split; [|done]. split; [by intros [? ?]|by intros [? _]]. }
  set (l := c :: cs). simpl negb. cbv iota zeta.
  set (s := Z.max 0 start). set (total := Z.of_nat (length l)).
  destruct (Z.ltb_spec (Z.min (s + max_chunks) total) total) as [Hlt|Hge];
    simpl.
  - split; [split; [intros _; split; [done|lia] | by eexists]|].
    intros i [= <-]. split; [done|]. intros Hmax.
    assert (Z.min (s + max_chunks) total = s + max_chunks) as -> by lia.
    unfold Spec.ends_before. fold total.
    split; [lia|]. split; [lia|]. apply slice_in_range; lia.
  - split; [|done]. split; [by intros [? ?]|]. intros [_ ?]. lia.
Qed.

(** C4: the claim as stated fails on the negative start of the test
    suite, where the clamp makes the page reach the end; on a negative
    [max_chunks], where the value returned is no position; and on the
    empty sequence with a negative [max_chunks], where nothing is
    returned. *)
Lemma next_index_as_stated_counterexample :
  ~ Spec.next_index_as_stated Main.paginate_chunks
      [mkChunk 0 "chunk1"] (-1) 1
  /\ ~ Spec.next_index_as_stated Main.paginate_chunks
        [mkChunk 0 "chunk1"; mkChunk 1 "chunk2"; mkChunk 2 "chunk3"] 0 (-1)
  /\ ~ Spec.next_index_as_stated Main.paginate_chunks [] 0 (-1).
Proof.
  unfold Spec.next_index_as_stated. simpl. split; [|split].
  - intros [[_ H] _]. destruct H as [? H]; [lia|discriminate].
  - intros [_ H]. destruct (H (-1) eq_refl) as [_ [s [? _]]]. lia.
  - intros [[_ H] _]. destruct H as [? H]; [lia|discriminate].
Qed.

(** C5: a negative [start] gives the page of [start = 0]. *)
Theorem paginate_negative_start (cs : list Chunk) (start max_chunks : Z) :
  start < 0 ->
  Main.paginate_chunks cs start max_chunks
  = Main.paginate_chunks cs 0 max_chunks.
Proof.
  intros Hstart. unfold Main.paginate_chunks.
  by rewrite (Z.max_l 0 start), (Z.max_l 0 0) by lia.
Qed.

(** C5 at the input of [test_paginate_chunks_negative_start]. *)
Lemma paginate_negative_start_witness :
  Main.paginate_chunks [mkChunk 0 "chunk1"] (-1) 1
  = Main.paginate_chunks [mkChunk 0 "chunk1"] 0 1.
Proof.
  apply (paginate_negative_start [mkChunk 0 "chunk1"] (-1) 1). lia.
Defined.

(** The sample does not clamp: a negative [start] counts from the end. *)
Example sample_paginate_negative_start :
  Sample.paginate_chunks [mkChunk 0 "chunk1"] (-1) 1 = mkPage [] (Some 0) 1
  /\ Sample.paginate_chunks [mkChunk 0 "chunk1"] 0 1
     = mkPage [mkChunk 0 "chunk1"] None 1.
Proof. by split. Qed.

(** Scenarios 2 and 3 of the specification. *)
Example scenario2 :
  Main.paginate_chunks
    [mkChunk 0 "chunk1"; mkChunk 1 "chunk2"; mkChunk 2 "chunk3";
     mkChunk 3 "chunk4"] 0 2
  = mkPage [mkChunk 0 "chunk1"; mkChunk 1 "chunk2"] (Some 2) 4.
Proof. reflexivity. Qed.

Example scenario3 :
  Main.paginate_chunks
    [mkChunk 0 "chunk1"; mkChunk 1 "chunk2"; mkChunk 2 "chunk3"] 2 2
  = mkPage [mkChunk 2 "chunk3"] None 3.
Proof. reflexivity. Qed.

End Paginator.

(** ** The video-id extractor *)

Section Extractor.

Variable urlparse : string -> result ParseResult.
Variable parse_qs : string -> result (gmap string (list string)).

Let extract := Main.extract_video_id urlparse parse_qs.

Lemma extract_empty : extract None = Ok None /\ extract (Some "") = Ok None.
Proof. by split. Qed.

Lemma extract_malformed u e :
  urlparse u = Raise e -> extract (Some u) = Ok None.
Proof.
  intros Hparse. unfold extract, Main.extract_video_id.
  destruct u; [done|]. by rewrite Hparse.
Qed.

Lemma extract_youtu_be u parsed :
  u <> "" -> urlparse u = Ok parsed -> hostname parsed = Some "youtu.be" ->
  extract (Some u) = Ok (Some (Py.lstrip "/" (path parsed))).
Proof.
  intros Hu Hparse Hhost. unfold extract, Main.extract_video_id.
  destruct u; [done|]. rewrite Hparse. simpl. by rewrite Hhost.
Qed.

Lemma extract_youtube_com u parsed :
  u <> "" -> urlparse u = Ok parsed ->
  hostname parsed = Some "youtube.com"
  \/ hostname parsed = Some "www.youtube.com" ->
  extract (Some u)
  = Ok (match parse_qs (query parsed) with
        | Ok params => params !! "v" ≫= head
        | Raise _ => None
        end).
Proof.
  intros Hu Hparse Hhost. unfold extract, Main.extract_video_id.
  destruct u; [done|]. rewrite Hparse. simpl.
  destruct Hhost as [-> | ->]; simpl;
    destruct (parse_qs (query parsed)) as [params|]; simpl; try done;
    by destruct (params !! "v") as [[|v vs]|].
Qed.

Lemma extract_other_host u parsed :
  u <> "" -> urlparse u = Ok parsed ->
  hostname parsed <> Some "youtu.be" ->
  hostname parsed <> Some "youtube.com" ->
  hostname parsed <> Some "www.youtube.com" ->
  extract (Some u) = Ok None.
Proof.
  intros Hu Hparse H1 H2 H3. unfold extract, Main.extract_video_id.
  destruct u; [done|]. rewrite Hparse. simpl.
  by rewrite !bool_decide_eq_false_2.
Qed.

End Extractor.

(** C7: [extract_video_id] returns on every input, a missing one
    included, and never raises.  It reports failure ([None]) on a missing
    or empty input, on a URL that [urlparse] rejects and on any host
    other than the three below; on host [youtu.be] it returns the path
    without its leading slashes; on hosts [youtube.com] and
    [www.youtube.com] it returns the first value of the query parameter
    [v], and reports failure when there is none. *)
Theorem extract_video_id_total
    (urlparse : string -> result ParseResult)
    (parse_qs : string -> result (gmap string (list string)))
    (url : option string) :
  let extract := Main.extract_video_id urlparse parse_qs in
  is_Ok (extract url)
  /\ (url = None \/ url = Some "" -> extract url = Ok None)
  /\ forall u, url = Some u -> u <> "" ->
       match urlparse u with
       | Raise _ => extract url = Ok None
       | Ok parsed =>
           (hostname parsed = Some "youtu.be" ->
            extract url = Ok (Some (Py.lstrip "/" (path parsed))))
           /\ (hostname parsed = Some "youtube.com"
               \/ hostname parsed = Some "www.youtube.com" ->
               extract url
               = Ok (match parse_qs (query parsed) with
                     | Ok params => params !! "v" ≫= head
                     | Raise _ => None
                     end))
           /\ (hostname parsed <> Some "youtu.be" ->
               hostname parsed <> Some "youtube.com" ->
               hostname parsed <> Some "www.youtube.com" ->
               extract url = Ok None)
       end.
Proof.
  intros extract.
  assert (forall u, url = Some u -> u <> "" ->
    match urlparse u with
    | Raise _ => extract url = Ok None
    | Ok parsed =>
        (hostname parsed = Some "youtu.be" ->
         extract url = Ok (Some (Py.lstrip "/" (path parsed))))
        /\ (hostname parsed = Some "youtube.com"
            \/ hostname parsed = Some "www.youtube.com" ->
            extract url
            = Ok (match parse_qs (query parsed) with
                  | Ok params => params !! "v" ≫= head
                  | Raise _ => None
                  end))
        /\ (hostname parsed <> Some "youtu.be" ->
            hostname parsed <> Some "youtube.com" ->
            hostname parsed <> Some "www.youtube.com" ->
            extract url = Ok None)
    end) as Hcases; subst extract.
  { intros u -> Hu. destruct (urlparse u) as [parsed|e] eqn:Hparse.
    - split; [|split]; intros.
      + by eapply extract_youtu_be.
      + erewrite extract_youtube_com by done. done.
      + by eapply extract_other_host.
    - by eapply extract_malformed. }
  split; [|split; [|done]].
  - destruct url as [u|]; [|by eexists].
    destruct (decide (u = "")) as [-> | Hu]; [by eexists|].
    specialize (Hcases u eq_refl Hu).
    destruct (urlparse u) as [parsed|e]; [|by eexists].
    destruct Hcases as (Hbe & Hcom & Hother).
    destruct (decide (hostname parsed = Some "youtu.be")) as [H1|H1];
      [rewrite Hbe by done; by eexists|].
    destruct (decide (hostname parsed = Some "youtube.com")) as [H2|H2];
      [rewrite Hcom by auto; by eexists|].
    destruct (decide (hostname parsed = Some "www.youtube.com")) as [H3|H3];
      [rewrite Hcom by auto; by eexists|].
    rewrite Hother by done. by eexists.
  - intros [-> | ->]; apply extract_empty.
Qed.

(** C7 on the URLs of the test suite. *)
Lemma extract_video_id_total_witness :
  let extract := Main.extract_video_id Stub.urlparse Stub.parse_qs in
  extract (Some Stub.watch_url) = Ok (Some "dQw4w9WgXcQ")
  /\ extract (Some Stub.short_url) = Ok (Some "dQw4w9WgXcQ")
  /\ extract (Some "https://example.com/video") = Ok None
  /\ extract (Some "http://[") = Ok None
  /\ extract (Some "") = Ok None
  /\ extract None = Ok None.
Proof.
  pose proof (extract_video_id_total Stub.urlparse Stub.parse_qs) as H.
  refine (conj _ (conj _ (conj _ (conj _ (conj _ _))))).
  - destruct (H (Some Stub.watch_url)) as (_ & _ & Hu).
    specialize (Hu _ eq_refl ltac:(discriminate)).
    apply (proj1 (proj2 Hu)). by right.
  - destruct (H (Some Stub.short_url)) as (_ & _ & Hu).
    specialize (Hu _ eq_refl ltac:(discriminate)).
    apply (proj1 Hu). reflexivity.
  - destruct (H (Some "https://example.com/video")) as (_ & _ & Hu).
    specialize (Hu _ eq_refl ltac:(discriminate)).
    apply (proj2 (proj2 Hu)); discriminate.
  - destruct (H (Some "http://[")) as (_ & _ & Hu).
    exact (Hu _ eq_refl ltac:(discriminate)).
  - apply (proj1 (proj2 (H (Some "")))). by right.
  - apply (proj1 (proj2 (H None))). by left.
Defined.

(** ** The language selector *)

Ltac step :=
  unfold catch_NoTranscriptFound, catch, raise, lift, call;
  unfold mbind, M_bind, mret, M_ret; simpl.

Ltac run := unfold outcome, calls; step.

Section Selector.

Lemma find_none_all {A} (p : A -> bool) (l : list A) :
  (forall x, x ∈ l -> p x = false) -> List.find p l = None.
Proof.
  induction l as [|x l IH]; intros Hall; [done|]. simpl.
  rewrite (Hall x) by apply list_elem_of_here.
  apply IH. intros y Hy. apply Hall. by apply list_elem_of_further.
Qed.

Lemma find_in_kinds_no_match kinds code (vs : list Transcript) :
  (forall t, t ∈ vs -> language_code t <> code) ->
  Library.find_in_kinds kinds code vs = None.
Proof.
  intros Hno. induction kinds as [|k kinds IH]; [done|]. simpl.
  rewrite find_none_all; [done|]. intros t Ht.
  rewrite bool_decide_eq_false_2 by by apply Hno.
  apply andb_false_r.
Qed.

(** With no variant in a requested language, the lookup raises
    [NoTranscriptFound]. *)
Lemma find_by_codes_no_match kinds codes (vs : list Transcript) :
  (forall t, t ∈ vs -> language_code t ∉ codes) ->
  Library.find_by_codes kinds codes vs = Raise NoTranscriptFound.
Proof.
  induction codes as [|c codes IH]; intros Hno; [done|]. simpl.
  rewrite find_in_kinds_no_match.
  - apply IH. intros t Ht Hin. apply (Hno t Ht). by right.
  - intros t Ht Heq. apply (Hno t Ht). rewrite Heq. by left.
Qed.

Lemma first_rule_none (vs : list Transcript) :
  Spec.first_rule Spec.priority vs = None <-> vs = [].
Proof.
  split; [|by intros ->]. destruct vs as [|t vs]; [done|].
  unfold Spec.priority, Spec.first_rule. simpl.
  by repeat case_match.
Qed.

(** The selection does not depend on the calls made before it. *)
Lemma select_requested_run tl r0 rest log :
  Main.select_requested tl r0 rest log
  = (outcome (Main.select_requested tl r0 rest),
     log ++ calls (Main.select_requested tl r0 rest)).
Proof.
  unfold Main.select_requested. run.
  repeat case_match; simplify_eq; rewrite ?app_nil_r; done.
Qed.

Lemma select_default_refines tl vs :
  Library.serves tl vs ->
  Main.select_default tl = Spec.select_default vs.
Proof.
  intros [Hiter _ Hmanual Hgenerated].
  unfold Main.select_default, Spec.select_default, first_such.
  rewrite Hmanual, Hgenerated, Hiter.
  unfold Spec.priority, Spec.first_rule, Spec.is_en.
  unfold Library.find_by_codes, Library.find_in_kinds.
  unfold Library.manual, Library.generated. cbn [yielded raised].
  destruct (List.find (fun t => negb (is_generated t)
                                && bool_decide (language_code t = "en")) vs);
    destruct (List.find (fun t => negb (is_generated t)) vs);
    destruct (List.find (fun t => is_generated t
                                  && bool_decide (language_code t = "en")) vs);
    destruct (List.find is_generated vs);
    destruct (List.find (fun _ => true) vs); reflexivity.
Qed.

End Selector.

(** C2: when the caller names no language and the transcript list
    serves the variants [vs], the selector returns the first variant of
    [vs] under the first of the five rules that some variant satisfies,
    without calling the service; it fails with [NoTranscriptFound]
    exactly when [vs] is empty. *)
Theorem select_default_priority
    (tl : TranscriptList) (vs : list Transcript)
    (lang : option (string + list string)) :
  Library.serves tl vs -> Spec.requested lang = [] ->
  outcome (Main.select_transcript tl lang) = Spec.select_default vs
  /\ calls (Main.select_transcript tl lang) = []
  /\ (outcome (Main.select_transcript tl lang) = Raise NoTranscriptFound
      <-> vs = []).
Proof.
  intros Hserves Hlang.
  assert (Main.select_transcript tl lang = lift (Main.select_default tl))
    as ->.
  { destruct lang as [[[|c s]|[|r0 rest]]|]; simpl in Hlang; done. }
  unfold outcome, calls, lift. simpl.
  rewrite (select_default_refines tl vs Hserves).
  split; [done|]. split; [done|].
  unfold Spec.select_default. rewrite <- first_rule_none.
  destruct (Spec.first_rule Spec.priority vs); split; done.
Qed.

(** C2, scenario 4: only a Spanish auto-generated variant. *)
Lemma select_default_priority_witness :
  outcome (Main.select_transcript
             (Library.transcript_list_of [Stub.spanish_auto]) None)
  = Ok Stub.spanish_auto.
Proof.
  apply (select_default_priority
           (Library.transcript_list_of [Stub.spanish_auto])
           [Stub.spanish_auto] None); [by split | reflexivity].
Defined.

(** The test of line 165 is the specification's. *)
Lemma translatable_into_spec code t :
  Main.translatable_into code t
  = bool_decide (Spec.translates_into code t).
Proof.
  assert (code ∈ translation_language_code <$> translation_languages t
          <-> Exists (fun target => translation_language_code target = code)
                (translation_languages t)) as Hcodes.
  { rewrite list_elem_of_fmap, Exists_exists. split.
    - intros (target & -> & Hin). by exists target.
    - intros (target & Hin & <-). by exists target. }
  unfold Main.translatable_into.
  destruct (decide (Spec.translates_into code t)) as [[Ht Hex] | Hnot].
  - rewrite (bool_decide_eq_true_2 (Spec.translates_into code t))
      by done.
    rewrite Ht. simpl. apply bool_decide_eq_true_2. by apply Hcodes.
  - rewrite (bool_decide_eq_false_2 (Spec.translates_into code t))
      by done.
    destruct (is_translatable t) eqn:Ht; [|done]. simpl.
    apply bool_decide_eq_false_2. intros Hin. apply Hnot.
    split; [done|]. by apply Hcodes.
Qed.

Lemma find_ext {A} (p q : A -> bool) (l : list A) :
  (forall x, p x = q x) -> List.find p l = List.find q l.
Proof.
  intros Hpq. induction l as [|x l IH]; [done|]. simpl.
  by rewrite Hpq, IH.
Qed.

(** What [List.find] returns is the first item that passes. *)
Lemma find_Some_first {A} (p : A -> bool) (l : list A) (x : A) :
  List.find p l = Some x ->
  exists before after,
    l = before ++ x :: after /\ p x = true
    /\ forall u, u ∈ before -> p u = false.
Proof.
  induction l as [|y l IH]; [done|]. simpl.
  destruct (p y) eqn:Hy.
  - intros [= ->]. exists [], l. split; [done|]. split; [done|].
    by intros u ?%elem_of_nil.
  - intros (before & after & -> & Hx & Hbefore)%IH.
    exists (y :: before), after. split; [done|]. split; [done|].
    intros u [-> | Hu]%elem_of_cons; [done|]. by apply Hbefore.
Qed.

(** C3: when the caller names the languages [r0 :: rest], the transcript
    list serves the variants [vs] and none of them is in a named
    language, the selector takes the first variant of [vs], in their
    order, that is translatable and has [r0] among the codes of its
    translation languages, calls its translation into [r0] and returns
    the derivative; with no such variant, or when that translation
    fails, it raises [NoTranscriptFound].  [rest] plays no part. *)
Theorem select_requested_translation
    (tl : TranscriptList) (vs : list Transcript)
    (lang : option (string + list string))
    (r0 : string) (rest : list string) :
  Library.serves tl vs -> Spec.requested lang = r0 :: rest ->
  (forall t, t ∈ vs -> language_code t ∉ r0 :: rest) ->
  outcome (Main.select_transcript tl lang)
  = Spec.select_by_translation r0 vs
  /\ calls (Main.select_transcript tl lang)
     = match List.find (fun t => bool_decide (Spec.translates_into r0 t))
               vs with
       | Some _ => [CallTranslate r0]
       | None => []
       end
  /\ (forall derivative,
       outcome (Main.select_transcript tl lang) = Ok derivative ->
       exists before t after,
         vs = before ++ t :: after
         /\ Spec.translates_into r0 t
         /\ (forall u, u ∈ before -> ~ Spec.translates_into r0 u)
         /\ translate t r0 = Ok derivative)
  /\ ((forall t, t ∈ vs -> ~ Spec.translates_into r0 t) ->
      outcome (Main.select_transcript tl lang) = Raise NoTranscriptFound
      /\ calls (Main.select_transcript tl lang) = []).
Proof.
  intros [Hiter Hfind _ _] Hlang Hno.
  assert (Main.select_transcript tl lang
          = Main.select_requested tl r0 rest) as ->.
  { destruct lang as [[[|c s]|[|r rest']]|]; simpl in Hlang;
      try done; by simplify_eq. }
  assert (outcome (Main.select_requested tl r0 rest)
          = Spec.select_by_translation r0 vs
          /\ calls (Main.select_requested tl r0 rest)
             = match List.find
                       (fun t => bool_decide (Spec.translates_into r0 t))
                       vs with
               | Some _ => [CallTranslate r0]
               | None => []
               end) as [Hout Hcalls].
  { unfold Main.select_requested, Spec.select_by_translation, first_such.
    run. rewrite Hfind, find_by_codes_no_match, Hiter by done. simpl.
    rewrite (find_ext _ _ vs (translatable_into_spec r0)).
    destruct (List.find _ vs) as [t|]; simpl; [|done].
    by destruct (translate t r0). }
  split; [done|]. split; [done|]. rewrite Hout, Hcalls.
  unfold Spec.select_by_translation. split.
  - intros derivative Hd.
    destruct (List.find _ vs) as [t|] eqn:Hfound; [|done].
    apply find_Some_first in Hfound
      as (before & after & -> & Ht & Hbefore).
    exists before, t, after. split; [done|].
    split; [by apply bool_decide_eq_true in Ht|]. split.
    + intros u Hu. eapply bool_decide_eq_false_1. by apply Hbefore.
    + by destruct (translate t r0); simplify_eq.
  - intros Hnone. rewrite find_none_all; [done|].
    intros t Ht. apply bool_decide_eq_false_2. by apply Hnone.
Qed.

(** C3 on five variants, none in a requested language: a Spanish one
    that is not translatable, a German one that translates into French
    only, a Korean one that lists English but is not translatable, and
    two Vietnamese ones that translate into English.  English then
    French requested: the first Vietnamese variant is translated into
    English.  And with the German variant alone, French being the
    second language requested: no transcript. *)
Lemma select_requested_translation_witness :
  outcome (Main.select_transcript
             (Library.transcript_list_of
                [Stub.spanish_auto; Stub.german_manual; Stub.korean_auto;
                 Stub.vietnamese_auto; Stub.broken_translation])
             (Some (inr ["en"; "fr"])))
  = Ok Stub.english_derivative
  /\ outcome (Main.select_transcript
                (Library.transcript_list_of [Stub.german_manual])
                (Some (inr ["en"; "fr"])))
     = Raise NoTranscriptFound.
Proof.
  split.
  - apply (select_requested_translation
             (Library.transcript_list_of
                [Stub.spanish_auto; Stub.german_manual; Stub.korean_auto;
                 Stub.vietnamese_auto; Stub.broken_translation])
             [Stub.spanish_auto; Stub.german_manual; Stub.korean_auto;
              Stub.vietnamese_auto; Stub.broken_translation]
             (Some (inr ["en"; "fr"])) "en" ["fr"]);
      [by split | reflexivity |].
    apply Forall_forall.
    repeat (apply Forall_cons; split;
            [apply (bool_decide_unpack _); by vm_compute|]).
    by apply Forall_nil.
  - apply (select_requested_translation
             (Library.transcript_list_of [Stub.german_manual])
             [Stub.german_manual] (Some (inr ["en"; "fr"])) "en" ["fr"]);
      [by split | reflexivity | |].
    + intros t ->%list_elem_of_singleton.
      apply (bool_decide_unpack _). by vm_compute.
    + intros t ->%list_elem_of_singleton.
      apply (bool_decide_unpack _). by vm_compute.
Defined.

(** ** The request handler *)

Section Handler.

Variable urlparse : string -> result ParseResult.
Variable parse_qs : string -> result (gmap string (list string)).
Variable ytt_list : string -> result TranscriptList.

Let extract := Main.extract_video_id urlparse parse_qs.
Let body := Main.body urlparse parse_qs ytt_list.
Let handler := Main.get_youtube_caption urlparse parse_qs ytt_list.

Lemma select_transcript_run tl lang log :
  Main.select_transcript tl lang log
  = (outcome (Main.select_transcript tl lang),
     log ++ calls (Main.select_transcript tl lang)).
Proof.
  destruct lang as [[[|c s]|[|r0 rest]]|]; simpl;
    solve [ apply select_requested_run
          | unfold outcome, calls, lift; simpl; by rewrite app_nil_r ].
Qed.


(** One run of the body, step by step. *)
Lemma body_run request :
  body request []
  = match extract (Some (url request)) with
    | Raise e => (Raise e, [])
    | Ok None | Ok (Some "") =>
        (Raise (HTTPException 400 "Invalid YouTube URL."), [])
    | Ok (Some vid) =>
        match ytt_list vid with
        | Raise e => (Raise e, [CallList vid])
        | Ok tl =>
            let selection :=
              Main.select_transcript tl (language_param request) in
            match outcome selection with
            | Raise e => (Raise e, CallList vid :: calls selection)
            | Ok t =>
                (fetched ← fetch t; Main.assemble request vid tl fetched,
                 CallList vid :: calls selection ++ [CallFetch])
            end
        end
    end.
Proof.
  unfold body, Main.body. fold extract.
  generalize (extract (Some (url request))). intros [[[|c vid]|]|e]; step;
    try done.
  destruct (ytt_list (String c vid)) as [tl|e]; [|done].
  rewrite select_transcript_run. simpl.
  destruct (outcome (Main.select_transcript tl (language_param request)))
    as [t|e]; [|done].
  by destruct (fetch t).
Qed.

Lemma handler_run request :
  handler request []
  = match body request [] with
    | (Ok p, log) => (Ok p, log)
    | (Raise e, log) => (Raise (Main.on_exception e), log)
    end.
Proof.
  unfold handler, Main.get_youtube_caption. fold body. step.
  by destruct (body request []) as [[p|e] log].
Qed.

Lemma len_join (texts : list string) :
  texts <> [] ->
  Py.len (Py.join " " texts)
  = foldr Z.add 0 (Py.len <$> texts) + (Z.of_nat (length texts) - 1).
Proof.
  induction texts as [|p rest IH]; [done|]. intros _.
  destruct rest as [|q rest].
  - simpl. unfold Py.len. lia.
  - specialize (IH ltac:(done)).
    change (Py.join " " (p :: q :: rest))
      with (p +:+ " " +:+ Py.join " " (q :: rest)).
    unfold Py.len in *. rewrite !length_app, !Nat2Z.inj_add, IH.
    simpl. lia.
Qed.

(** What a successful run of the body went through. *)
Lemma body_Ok request p :
  outcome (body request) = Ok p ->
  exists vid tl t fetched,
    extract (Some (url request)) = Ok (Some vid) /\ vid <> ""
    /\ ytt_list vid = Ok tl
    /\ outcome (Main.select_transcript tl (language_param request)) = Ok t
    /\ fetch t = Ok fetched
    /\ Main.assemble request vid tl fetched = Ok p.
Proof.
  unfold outcome. rewrite body_run.
  destruct (extract (Some (url request))) as [[[|c vid]|]|e]; try done.
  destruct (ytt_list (String c vid)) as [tl|e] eqn:Hlist; [|done].
  simpl.
  destruct (outcome (Main.select_transcript tl (language_param request)))
    as [t|e] eqn:Hsel; [|done].
  destruct (fetch t) as [fetched|e] eqn:Hfetch; [|done]. simpl.
  intros Hp. by exists (String c vid), tl, t, fetched.
Qed.


(** C9: in the path of a caller who named languages, once the direct
    lookup has raised [NoTranscriptFound], an exception of any kind
    raised by the scan for a translatable variant, or by the translation
    of the variant found, leaves the selection as [NoTranscriptFound],
    and the caller receives the 404 response of that failure. *)
Theorem translation_failure_is_not_found request vid tl r0 rest e :
  extract (Some (url request)) = Ok (Some vid) -> vid <> "" ->
  ytt_list vid = Ok tl ->
  Spec.requested (language_param request) = r0 :: rest ->
  find_transcript tl (r0 :: rest) = Raise NoTranscriptFound ->
  first_such (Main.translatable_into r0) (transcripts tl) = Raise e
  \/ (exists t,
        first_such (Main.translatable_into r0) (transcripts tl)
        = Ok (Some t)
        /\ translate t r0 = Raise e) ->
  outcome (Main.select_transcript tl (language_param request))
  = Raise NoTranscriptFound
  /\ outcome (handler request)
     = Raise (HTTPException 404
         "No transcript available for this video in the requested language(s).").
Proof.
  intros Hextract Hvid Hlist Hlang Hfind Hfail.
  assert (outcome (Main.select_transcript tl (language_param request))
          = Raise NoTranscriptFound) as Hsel.
  { assert (Main.select_transcript tl (language_param request)
            = Main.select_requested tl r0 rest) as ->.
    { destruct (language_param request) as [[[|c s]|[|r rest']]|];
        simpl in Hlang; try done; by simplify_eq. }
    unfold Main.select_requested. run. rewrite Hfind. simpl.
    destruct Hfail as [-> | (t & -> & Htranslate)]; [done|].
    simpl. by rewrite Htranslate. }
  split; [done|].
  unfold outcome. rewrite handler_run, body_run, Hextract.
  destruct vid; [done|]. rewrite Hlist. cbv zeta. by rewrite Hsel.
Qed.

(** C10: in a response, [total_characters] is the length of the fetched
    snippet texts joined by one space: 0 for no snippet, and for n >= 1
    snippets the sum of their lengths plus n - 1; the chunks of the page
    are cut from that same string. *)
Theorem total_characters_of_joined_text request p :
  outcome (handler request) = Ok p ->
  exists vid tl t fetched all_chunks,
    ytt_list vid = Ok tl
    /\ outcome (Main.select_transcript tl (language_param request)) = Ok t
    /\ fetch t = Ok fetched
    /\ let texts := snippet_text <$> snippets fetched in
       let full_text := Py.join " " texts in
       total_characters p = Py.len full_text
       /\ (texts = [] -> total_characters p = 0)
       /\ (texts <> [] ->
           total_characters p
           = foldr Z.add 0 (Py.len <$> texts)
             + (Z.of_nat (length texts) - 1))
       /\ Main.chunk_text_opt full_text (chunk_size request) = Ok all_chunks
       /\ Main.paginate_chunks_opt all_chunks
            (start_index request) (max_chunks request)
          = Ok (page_data p).
Proof.
  intros Hp.
  assert (outcome (body request) = Ok p) as Hbody.
  { unfold outcome in *. rewrite handler_run in Hp.
    by destruct (body request []) as [[p'|e] log]; simplify_eq/=. }
  apply body_Ok in Hbody
    as (vid & tl & t & fetched & _ & _ & Hlist & Hsel & Hfetch & Hasm).
  unfold Main.assemble in Hasm.
  destruct (Main.chunk_text_opt _ (chunk_size request))
    as [all_chunks|] eqn:Hchunks; [|done].
  simpl in Hasm.
  destruct (Main.paginate_chunks_opt all_chunks _ _)
    as [page|] eqn:Hpage; [|done].
  simpl in Hasm.
  destruct (iterate (transcripts tl)) as [ts|]; [|done].
  simpl in Hasm. injection Hasm as <-.
  exists vid, tl, t, fetched, all_chunks. simpl.
  split; [done|]. split; [done|]. split; [done|].
  split; [done|]. split; [by intros ->|]. split; [apply len_join|done].
Qed.

End Handler.

(** The sample lets a parse error through to its caller. *)
Example sample_extract_malformed :
  Sample.extract_video_id Stub.urlparse Stub.parse_qs "http://["
  = Raise (ValueError "Invalid IPv6 URL").
Proof. reflexivity. Qed.

(** ** The handler on the test doubles *)



(** C9 at a variant whose translation fails on the wire, and at a
    transcript list whose enumeration fails. *)
Lemma translation_failure_is_not_found_witness :
  outcome
    (Main.get_youtube_caption Stub.urlparse Stub.parse_qs
       (Stub.ytt_list [Stub.broken_translation])
       (Stub.request (Some (inl "en"))))
  = Raise (HTTPException 404
      "No transcript available for this video in the requested language(s).")
  /\ outcome
       (Main.get_youtube_caption Stub.urlparse Stub.parse_qs
          (fun _ =>
             Ok (mkTranscriptList
                   (mkIteration [] (Some (OtherException "connection reset")))
                   (fun _ => Raise NoTranscriptFound)
                   (fun _ => Raise NoTranscriptFound)
                   (fun _ => Raise NoTranscriptFound)))
          (Stub.request (Some (inr ["en"; "fr"]))))
     = Raise (HTTPException 404
         "No transcript available for this video in the requested language(s).").
Proof.
  split.
  - eapply (translation_failure_is_not_found Stub.urlparse Stub.parse_qs
              (Stub.ytt_list [Stub.broken_translation])
              (Stub.request (Some (inl "en"))) "dQw4w9WgXcQ"
              (Library.transcript_list_of [Stub.broken_translation])
              "en" [] (OtherException "connection reset"));
      [reflexivity | discriminate | reflexivity | reflexivity
      | reflexivity |].
    right. exists Stub.broken_translation. split; reflexivity.
  - eapply (translation_failure_is_not_found Stub.urlparse Stub.parse_qs
              _ (Stub.request (Some (inr ["en"; "fr"]))) "dQw4w9WgXcQ"
              _ "en" ["fr"] (OtherException "connection reset"));
      [reflexivity | discriminate | reflexivity | reflexivity
      | reflexivity |].
    left. reflexivity.
Defined.

(** C10 at the request of [test_func_ytb_caption_success]: the snippets
    "Hello world" and "this is a test" give 26 characters. *)
Lemma total_characters_of_joined_text_witness :
  exists p,
    outcome
      (Main.get_youtube_caption Stub.urlparse Stub.parse_qs
         (Stub.ytt_list [Stub.english_manual])
         (Stub.request (Some (inl "en"))))
    = Ok p
    /\ total_characters p = 26
    /\ chunks (page_data p)
       = [mkChunk 0 "Hello worl"; mkChunk 1 "d this is "]
    /\ exists vid tl t fetched all_chunks,
         Stub.ytt_list [Stub.english_manual] vid = Ok tl
         /\ outcome (Main.select_transcript tl (Some (inl "en"))) = Ok t
         /\ fetch t = Ok fetched
         /\ let texts := snippet_text <$> snippets fetched in
            let full_text := Py.join " " texts in
            total_characters p = Py.len full_text
            /\ (texts = [] -> total_characters p = 0)
            /\ (texts <> [] ->
                total_characters p
                = foldr Z.add 0 (Py.len <$> texts)
                  + (Z.of_nat (length texts) - 1))
            /\ Main.chunk_text_opt full_text (Some 10) = Ok all_chunks
            /\ Main.paginate_chunks_opt all_chunks (Some 0) (Some 2)
               = Ok (page_data p).
Proof.
  eexists. split; [reflexivity|]. split; [reflexivity|].
  split; [reflexivity|].
  apply (total_characters_of_joined_text Stub.urlparse Stub.parse_qs
           (Stub.ytt_list [Stub.english_manual])
           (Stub.request (Some (inl "en")))).
  reflexivity.
Defined.

(** Scenario 6: no variant at all, no language named: 404. *)
Example scenario6 :
  outcome
    (Main.get_youtube_caption Stub.urlparse Stub.parse_qs
       (Stub.ytt_list []) (Stub.request None))
  = Raise (HTTPException 404
      "No transcript available for this video in the requested language(s).").
Proof. reflexivity. Qed.


(** * Further properties of the code *)

(** ** More on strings *)

Section MoreStrings.

Local Open Scope nat_scope.

Lemma length_str_take n s :
  String.length (Py.str_take n s) = n `min` String.length s.
Proof.
  revert s; induction n as [|n IH]; intros [|c s]; simpl; try done.
  by rewrite IH.
Qed.

Lemma str_take_ge n s : String.length s <= n -> Py.str_take n s = s.
Proof.
  revert s; induction n as [|n IH]; intros [|c s]; simpl; try done.
  - lia.
  - intros Hlen. f_equal. apply IH. lia.
Qed.

Lemma str_drop_ge n s : String.length s <= n -> Py.str_drop n s = "".
Proof.
  intros Hlen. apply str_length_0. rewrite length_str_drop. lia.
Qed.

Lemma str_take_add a b s :
  Py.str_take (a + b) s
  = Py.str_take a s +:+ Py.str_take b (Py.str_drop a s).
Proof.
  revert s; induction a as [|a IH]; intros [|c s]; simpl; try done.
  - by destruct b.
  - unfold String.app; simpl. f_equal. apply IH.
Qed.

(** Consecutive slices of width [w], as many as [m], are the first
    [m * w] characters. *)
Lemma concat_slices_take w s m :
  Py.concat
    ((fun k => Py.str_take w (Py.str_drop (k * w) s)) <$> seq 0 m)
  = Py.str_take (m * w) s.
Proof.
  revert s. induction m as [|m IH]; intros s; [done|].
  rewrite <- cons_seq, <- fmap_S_seq, fmap_cons, <- list_fmap_compose.
  unfold Py.concat; simpl foldr.
  change (S m * w) with (w + m * w). rewrite str_take_add. f_equal.
  rewrite <- IH. unfold Py.concat. f_equal.
  apply list_fmap_ext. intros _ k _. simpl. by rewrite str_drop_drop.
Qed.

End MoreStrings.

(** ** More on the chunker *)

Section MoreChunker.

Lemma ceil_div_pos a b : 0 < a -> 0 < b -> 0 < Spec.ceil_div a b.
Proof.
  intros Ha Hb. pose proof (ceil_div_spec a b Hb). nia.
Qed.

(** X1: for a non-empty text and a positive size, no chunk is empty and
    none is longer than [size]; every chunk but the last has exactly
    [size] characters. *)
Theorem chunk_lengths (s : string) (size : Z) (cs : list Chunk) :
  s <> "" -> 0 < size -> Main.chunk_text s size = Ok cs ->
  forall k c, cs !! k = Some c ->
    0 < Py.len (text c) <= size
    /\ ((S k < length cs)%nat -> Py.len (text c) = size).
Proof.
  intros Hs Hsize Hcs k c Hk.
  rewrite chunk_text_positive in Hcs by done. injection Hcs as <-.
  rewrite length_fmap, length_seq.
  rewrite list_lookup_fmap in Hk.
  destruct (seq _ _ !! k) as [j|] eqn:Hj; [|done].
  apply lookup_seq in Hj as [-> Hlt]. simpl in Hk. injection Hk as <-.
  simpl. unfold Py.len. rewrite length_str_take, length_str_drop.
  pose proof (ceil_div_spec (Py.len s) size Hsize) as Hceil.
  pose proof (ceil_div_pos (Py.len s) size) as Hpos.
  unfold Py.len in *.
  assert (0 < String.length s)%nat as HL
    by (destruct s; [done | simpl; lia]).
  specialize (Hpos ltac:(lia) Hsize).
  set (n := Spec.ceil_div _ size) in *.
  set (L := String.length s) in *.
  assert (Z.of_nat (Z.to_nat size) = size) as Hsz by lia.
  set (sz := Z.to_nat size) in *. rewrite <- Hsz in *. clearbody sz.
  clear Hsz. assert (Z.of_nat k <= n - 1) by lia.
  assert (Z.of_nat (k * sz) < Z.of_nat L) by nia.
  split; [lia|]. intros Hnext.
  assert (Z.of_nat k + 1 <= n - 1) by lia.
  assert (Z.of_nat (k * sz) + Z.of_nat sz < Z.of_nat L) by nia. lia.
Qed.

(** X1 on scenario 1: the chunk at position 1 of 3 is full. *)
Lemma chunk_lengths_witness :
  0 < Py.len "d this is " <= 10
  /\ ((2 < 3)%nat -> Py.len "d this is " = 10).
Proof.
  apply (chunk_lengths "Hello world this is a test" 10
           [mkChunk 0 "Hello worl"; mkChunk 1 "d this is ";
            mkChunk 2 "a test"]
           ltac:(discriminate) ltac:(lia) eq_refl 1%nat
           (mkChunk 1 "d this is ") eq_refl).
Defined.

(** X2: a non-empty text no longer than [size] is returned as the single
    chunk of index 0. *)
Theorem chunk_text_single (s : string) (size : Z) :
  s <> "" -> Py.len s <= size ->
  Main.chunk_text s size = Ok [mkChunk 0 s].
Proof.
  intros Hs Hlen.
  assert (0 < Py.len s) as Hpos
    by (unfold Py.len; destruct s; [done | simpl; lia]).
  rewrite chunk_text_positive by (done || lia).
  pose proof (ceil_div_spec (Py.len s) size ltac:(lia)) as Hceil.
  assert (Spec.ceil_div (Py.len s) size = 1) as -> by nia.
  simpl. do 2 f_equal. f_equal. apply str_take_ge.
  unfold Py.len in Hlen. lia.
Qed.

(** X2 on the inputs of [test_chunk_text_exact_size] and
    [test_chunk_text_smaller_than_size]. *)
Lemma chunk_text_single_witness :
  Main.chunk_text "Hello" 5 = Ok [mkChunk 0 "Hello"]
  /\ Main.chunk_text "Hi" 10 = Ok [mkChunk 0 "Hi"].
Proof.
  split.
  - apply (chunk_text_single "Hello" 5); [discriminate | by vm_compute].
  - apply (chunk_text_single "Hi" 10); [discriminate | by vm_compute].
Defined.

(** X3: the sample's [chunk_text] differs from the service's only on a
    zero size, where it raises the [ValueError] of [range] for every
    text; on any other size, negative ones included, both return the
    same chunks. *)
Theorem sample_chunk_text_agrees (txt : string) (size : Z) :
  (size <> 0 -> Sample.chunk_text txt size = Main.chunk_text txt size)
  /\ (size = 0 ->
      Sample.chunk_text txt size
      = Raise (ValueError "range() arg 3 must not be zero")).
Proof.
  split; [|by intros ->].
  intros Hsize. destruct (decide (txt = "")) as [-> | Htxt].
  - unfold Sample.chunk_text, Main.chunk_text, Py.range, Py.range_len.
    simpl. replace (size =? 0) with false by (symmetry; lia).
    rewrite !andb_false_r. by destruct (0 <? size).
  - destruct (Z.lt_trichotomy size 0) as [Hneg | [? | Hpos]]; [|done|].
    + unfold Sample.chunk_text, Main.chunk_text, Py.range, Py.range_len.
      replace (size =? 0) with false by (symmetry; lia).
      replace (size <=? 0) with true by (symmetry; lia).
      replace (0 <? size) with false by (symmetry; lia).
      replace (Py.len txt <? 0) with false
        by (symmetry; apply Z.ltb_ge; unfold Py.len; lia).
      rewrite orb_true_r, andb_false_r. done.
    + by apply sample_chunk_text_positive.
Qed.

End MoreChunker.

(** ** More on the paginator *)

Section MorePaginator.

(** With a [max_chunks] that is not negative, the page is the
    [max_chunks] chunks from the clamped start, or as many as there
    are. *)
Lemma paginate_window (cs : list Chunk) (start max_chunks : Z) :
  0 <= max_chunks ->
  chunks (Main.paginate_chunks cs start max_chunks)
  = take (Z.to_nat max_chunks) (drop (Z.to_nat (Z.max 0 start)) cs).
Proof.
  intros Hmax. unfold Main.paginate_chunks.
  destruct cs as [|c cs]; [by rewrite drop_nil, take_nil|].
  change (Py.truthy_list (c :: cs)) with true. simpl negb.
  cbv iota zeta. generalize (c :: cs). intros l. cbn [chunks].
  set (s := Z.max 0 start). set (total := Z.of_nat (length l)).
  unfold Py.slice, Py.slice_index. fold total.
  replace (s <? 0) with false by (symmetry; apply Z.ltb_ge; lia).
  replace (Z.min (s + max_chunks) total <? 0) with false
    by (symmetry; apply Z.ltb_ge; lia).
  rewrite (Z.min_l (Z.min _ _) total) by lia.
  destruct (Z.le_gt_cases s total) as [Hs|Hs].
  - rewrite (Z.min_l s total) by lia.
    destruct (Z.le_gt_cases (s + max_chunks) total).
    + f_equal. lia.
    + rewrite !take_ge; [done| |]; rewrite length_drop; lia.
  - rewrite (Z.min_r s total) by lia.
    rewrite !(drop_ge l) by lia. by rewrite !take_nil.
Qed.

Lemma slice_sublist {A} (l : list A) (i j : Z) :
  Py.slice l i j `sublist_of` l.
Proof.
  unfold Py.slice. etrans; [apply sublist_take | apply sublist_drop].
Qed.

(** X4: for a [max_chunks] that is not negative, the page holds
    [min(max_chunks, total - s)] chunks, [s] being the start clamped
    at 0, and none when [s >= total]; [total_chunks] is the length of
    the whole sequence whatever the window. *)
Theorem page_length (cs : list Chunk) (start max_chunks : Z) :
  0 <= max_chunks ->
  let p := Main.paginate_chunks cs start max_chunks in
  let total := Z.of_nat (length cs) in
  Z.of_nat (length (chunks p))
  = Z.max 0 (Z.min max_chunks (total - Z.max 0 start))
  /\ total_chunks p = total.
Proof.
  intros Hmax p total. subst p. rewrite paginate_window by done.
  split.
  - rewrite length_take, length_drop. lia.
  - unfold Main.paginate_chunks. by destruct cs.
Qed.

(** X4 on scenario 3, and on a start past the end. *)
Lemma page_length_witness :
  let cs := [mkChunk 0 "chunk1"; mkChunk 1 "chunk2"; mkChunk 2 "chunk3"] in
  length (chunks (Main.paginate_chunks cs 2 2)) = 1%nat
  /\ length (chunks (Main.paginate_chunks cs 5 2)) = 0%nat.
Proof.
  intros cs. split.
  - apply Nat2Z.inj.
    exact (proj1 (page_length cs 2 2 ltac:(lia))).
  - apply Nat2Z.inj.
    exact (proj1 (page_length cs 5 2 ltac:(lia))).
Defined.

(** X5: for a [max_chunks] that is not negative, a page followed by the
    chunks from its [next_index] on is the sequence from the clamped
    start on, and [next_index] is that start plus [max_chunks]; a page
    without [next_index] is all that is left from the start.  So a
    caller who follows [next_index] with a positive [max_chunks] moves
    forward and misses nothing, and one who asks for 0 chunks is handed
    the cursor it came with. *)
Theorem page_then_rest (cs : list Chunk) (start max_chunks : Z) :
  0 <= max_chunks ->
  let p := Main.paginate_chunks cs start max_chunks in
  let s := Z.max 0 start in
  match next_index p with
  | Some i =>
      i = s + max_chunks
      /\ chunks p ++ drop (Z.to_nat i) cs = drop (Z.to_nat s) cs
  | None => chunks p = drop (Z.to_nat s) cs
  end.
Proof.
  intros Hmax p s. subst p. rewrite paginate_window by done. fold s.
  unfold Main.paginate_chunks. destruct cs as [|c cs].
  { simpl. by rewrite drop_nil, take_nil. }
  change (Py.truthy_list (c :: cs)) with true. simpl negb.
  cbv iota zeta. generalize (c :: cs). intros l. cbn [next_index].
  fold s. set (total := Z.of_nat (length l)).
  destruct (Z.ltb_spec (Z.min (s + max_chunks) total) total) as [Hlt|Hge].
  - assert (Z.min (s + max_chunks) total = s + max_chunks) as -> by lia.
    split; [done|].
    replace (Z.to_nat (s + max_chunks))
      with (Z.to_nat s + Z.to_nat max_chunks)%nat by lia.
    rewrite <- drop_drop. apply take_drop.
  - apply take_ge. rewrite length_drop. fold total in Hge |- *. lia.
Qed.

(** X5 on scenario 2, whose page is followed by the last two chunks;
    and on a request for no chunk. *)
Lemma page_then_rest_witness :
  let cs := [mkChunk 0 "chunk1"; mkChunk 1 "chunk2"; mkChunk 2 "chunk3";
             mkChunk 3 "chunk4"] in
  chunks (Main.paginate_chunks cs 0 2) ++ drop 2 cs = cs
  /\ next_index (Main.paginate_chunks cs 1 0) = Some 1.
Proof.
  intros cs. split.
  - exact (proj2 (page_then_rest cs 0 2 ltac:(lia))).
  - pose proof (page_then_rest cs 1 0 ltac:(lia)) as H.
    simpl in H. destruct H as [H _]. simpl. by rewrite H.
Defined.

(** X6: whatever the integers [start] and [max_chunks], negative ones
    included, the page is a run of the given chunks in their order:
    nothing is added, repeated or reordered.  The same holds of the
    sample's paginator. *)
Theorem page_sublist (cs : list Chunk) (start max_chunks : Z) :
  chunks (Main.paginate_chunks cs start max_chunks) `sublist_of` cs
  /\ chunks (Sample.paginate_chunks cs start max_chunks) `sublist_of` cs.
Proof.
  split.
  - unfold Main.paginate_chunks. destruct cs as [|c cs]; [done|].
    simpl negb. cbv iota zeta. simpl chunks. apply slice_sublist.
  - apply slice_sublist.
Qed.

(** X7: on a start that is not negative the sample's paginator returns
    what the service's returns, unless the sequence is empty and
    [start + max_chunks] is negative. *)
Theorem sample_paginate_agrees (cs : list Chunk) (start max_chunks : Z) :
  0 <= start -> cs <> [] \/ 0 <= start + max_chunks ->
  Sample.paginate_chunks cs start max_chunks
  = Main.paginate_chunks cs start max_chunks.
Proof.
  intros Hstart Hcs. unfold Sample.paginate_chunks, Main.paginate_chunks.
  destruct cs as [|c cs].
  - destruct Hcs as [?|Hsum]; [done|]. simpl.
    rewrite Z.min_r by lia. simpl.
    unfold Py.slice. by rewrite drop_nil, take_nil.
  - simpl negb. cbv iota. by rewrite (Z.max_r 0 start) by lia.
Qed.

(** X7 on scenario 2 and on the empty sequence. *)
Lemma sample_paginate_agrees_witness :
  Sample.paginate_chunks
    [mkChunk 0 "chunk1"; mkChunk 1 "chunk2"; mkChunk 2 "chunk3";
     mkChunk 3 "chunk4"] 0 2
  = Main.paginate_chunks
      [mkChunk 0 "chunk1"; mkChunk 1 "chunk2"; mkChunk 2 "chunk3";
       mkChunk 3 "chunk4"] 0 2
  /\ Sample.paginate_chunks [] 0 5 = Main.paginate_chunks [] 0 5.
Proof.
  split.
  - apply sample_paginate_agrees; [lia | by left].
  - apply sample_paginate_agrees; [lia | right; lia].
Defined.

(** Where the two differ on the empty sequence: the sample returns a
    negative cursor. *)
Example sample_paginate_empty_negative :
  Sample.paginate_chunks [] 0 (-1) = mkPage [] (Some (-1)) 0
  /\ Main.paginate_chunks [] 0 (-1) = mkPage [] None 0.
Proof. by split. Qed.

End MorePaginator.

(** ** Chunking, then paginating *)

Section ChunkedPages.

(** The chunks of a page of a chunked text, by position. *)
Lemma chunked_page (s : string) (size start max_chunks : Z) cs :
  s <> "" -> 0 < size -> 0 <= max_chunks ->
  Main.chunk_text s size = Ok cs ->
  chunks (Main.paginate_chunks cs start max_chunks)
  = (fun k => mkChunk (Z.of_nat k)
                (Py.str_take (Z.to_nat size)
                   (Py.str_drop (k * Z.to_nat size) s)))
      <$> seq (Z.to_nat (Z.max 0 start))
            (Z.to_nat max_chunks
               `min` (Z.to_nat (Spec.ceil_div (Py.len s) size)
                      - Z.to_nat (Z.max 0 start))).
Proof.
  intros Hs Hsize Hmax Hcs. rewrite paginate_window by done.
  rewrite chunk_text_positive in Hcs by done. injection Hcs as <-.
  by rewrite <- fmap_drop, <- fmap_take, drop_seq, take_seq.
Qed.

(** X8: the texts of a page of a chunked text, concatenated, are the
    characters of the text from position [s * size] up to position
    [(s + max_chunks) * size], [s] being the start clamped at 0: the
    Python slice [text[s*size : (s+max_chunks)*size]]. *)
Theorem page_text (s : string) (size start max_chunks : Z) cs :
  s <> "" -> 0 < size -> 0 <= max_chunks ->
  Main.chunk_text s size = Ok cs ->
  Py.concat (text <$> chunks (Main.paginate_chunks cs start max_chunks))
  = Py.str_slice s (Z.max 0 start * size)
      ((Z.max 0 start + max_chunks) * size).
Proof.
  intros Hs Hsize Hmax Hcs.
  rewrite (chunked_page s size start max_chunks cs) by done.
  pose proof (ceil_div_spec (Py.len s) size Hsize) as Hceil.
  pose proof (ceil_div_pos (Py.len s) size) as Hpos.
  assert (0 < String.length s)%nat as HL
    by (destruct s; [done | simpl; lia]).
  specialize (Hpos ltac:(unfold Py.len; lia) Hsize).
  set (a := Z.to_nat (Z.max 0 start)).
  set (n := Z.to_nat (Spec.ceil_div (Py.len s) size)).
  set (w := Z.to_nat size). set (m := Z.to_nat max_chunks).
  rewrite <- list_fmap_compose.
  replace a with (a + 0)%nat at 1 by lia.
  rewrite <- fmap_add_seq, <- list_fmap_compose.
  rewrite (list_fmap_ext _
             (fun k => Py.str_take w
                         (Py.str_drop (k * w) (Py.str_drop (a * w) s)))
             (seq 0 (m `min` (n - a))))
    by (intros _ k _; simpl; rewrite str_drop_drop; do 2 f_equal; lia).
  rewrite concat_slices_take.
  replace ((Z.max 0 start + max_chunks) * size)
    with (Z.max 0 start * size + max_chunks * size) by lia.
  rewrite str_slice_window by nia.
  replace (Z.to_nat (Z.max 0 start * size)) with (a * w)%nat by nia.
  rewrite <- (str_take_min (_ * w)),
    <- (str_take_min (Z.to_nat (max_chunks * size))).
  f_equal. rewrite length_str_drop.
  assert (String.length s <= n * w)%nat
    by (unfold Py.len in *; subst n w; nia).
  replace (Z.to_nat (max_chunks * size)) with (m * w)%nat by nia.
  destruct (Nat.le_gt_cases (a * w) (String.length s)).
  - assert (a <= n)%nat by nia.
    destruct (Nat.le_gt_cases m (n - a)).
    + by rewrite (Nat.min_l m (n - a)) by done.
    + rewrite (Nat.min_r m (n - a)) by lia.
      assert (String.length s - a * w <= (n - a) * w)%nat by nia.
      assert ((n - a) * w <= m * w)%nat by nia.
      rewrite !Nat.min_r; [done | lia | lia].
  - rewrite !Nat.min_r; [done | lia | lia].
Qed.

(** X8 on scenario 1: the page of one chunk from start 1 is characters
    10 to 19 of the text. *)
Lemma page_text_witness :
  Py.concat
    (text <$> chunks (Main.paginate_chunks
                        [mkChunk 0 "Hello worl"; mkChunk 1 "d this is ";
                         mkChunk 2 "a test"] 1 1))
  = Py.str_slice "Hello world this is a test" (Z.max 0 1 * 10)
      ((Z.max 0 1 + 1) * 10).
Proof.
  apply (page_text "Hello world this is a test" 10 1 1);
    [discriminate | lia | lia | reflexivity].
Defined.

(** X9: in a page of a chunked text the chunk at position [k] carries
    the index [s + k], [s] being the start clamped at 0: the indices of
    a page are those of the whole sequence. *)
Theorem page_indices (s : string) (size start max_chunks : Z) cs :
  s <> "" -> 0 < size -> 0 <= max_chunks ->
  Main.chunk_text s size = Ok cs ->
  forall k c,
    chunks (Main.paginate_chunks cs start max_chunks) !! k = Some c ->
    index c = Z.max 0 start + Z.of_nat k.
Proof.
  intros Hs Hsize Hmax Hcs k c Hk.
  rewrite (chunked_page s size start max_chunks cs) in Hk by done.
  rewrite list_lookup_fmap in Hk.
  destruct (seq _ _ !! k) as [j|] eqn:Hj; [|done].
  apply lookup_seq in Hj as [-> _]. simpl in Hk. injection Hk as <-.
  simpl. lia.
Qed.

(** X9 on scenario 1: the second page of one chunk holds index 1. *)
Lemma page_indices_witness :
  index (mkChunk 1 "d this is ") = Z.max 0 1 + Z.of_nat 0.
Proof.
  apply (page_indices "Hello world this is a test" 10 1 1
           [mkChunk 0 "Hello worl"; mkChunk 1 "d this is ";
            mkChunk 2 "a test"]
           ltac:(discriminate) ltac:(lia) ltac:(lia) eq_refl 0%nat).
  reflexivity.
Defined.

End ChunkedPages.

(** ** More on the extractor *)

Section MoreExtractor.

Variable urlparse : string -> result ParseResult.
Variable parse_qs : string -> result (gmap string (list string)).

Lemma lstrip_spec (c : ascii) (s : string) :
  exists n,
    s = String.string_of_list_ascii (replicate n c) +:+ Py.lstrip c s
    /\ forall rest, Py.lstrip c s <> String c rest.
Proof.
  induction s as [|a s (n & Heq & Hno)].
  - by exists 0%nat.
  - simpl. destruct (decide (a = c)) as [-> | Hne].
    + exists (S n). split; [|done]. simpl.
      unfold String.app in *; simpl. by rewrite <- Heq.
    + exists 0%nat. split; [done|]. intros rest [= ? _]. done.
Qed.

(** X10: on a non-empty URL the service's extractor returns what the
    sample's returns, and [None] where the sample's raises. *)
Theorem extract_main_of_sample (u : string) :
  u <> "" ->
  Main.extract_video_id urlparse parse_qs (Some u)
  = match Sample.extract_video_id urlparse parse_qs u with
    | Ok r => Ok r
    | Raise _ => Ok None
    end.
Proof.
  intros Hu. destruct u as [|c u]; [done|].
  unfold Main.extract_video_id, try_except.
  change (Sample.extract_video_id urlparse parse_qs (String c u))
    with (parsed ← urlparse (String c u);
          if bool_decide (hostname parsed = Some "youtu.be")
          then Ok (Some (Py.lstrip "/" (path parsed)))
          else if bool_decide (hostname parsed = Some "www.youtube.com")
                  || bool_decide (hostname parsed = Some "youtube.com")
          then
            params ← parse_qs (query parsed);
            match params !! "v" with
            | None => Ok None
            | Some [] => Raise (OtherException "list index out of range")
            | Some (v :: _) => Ok (Some v)
            end
          else Ok None).
  by destruct (_ ≫= _).
Qed.

(** X11: the id taken from a [youtu.be] URL is the path without its
    leading slashes, all of them: it never starts with a slash. *)
Theorem youtu_be_id_without_slash (u : string) (parsed : ParseResult) :
  u <> "" -> urlparse u = Ok parsed ->
  hostname parsed = Some "youtu.be" ->
  exists id n,
    Main.extract_video_id urlparse parse_qs (Some u) = Ok (Some id)
    /\ path parsed
       = String.string_of_list_ascii (replicate n "/"%char) +:+ id
    /\ forall rest, id <> String "/" rest.
Proof.
  intros Hu Hparse Hhost.
  destruct (lstrip_spec "/" (path parsed)) as (n & Heq & Hno).
  exists (Py.lstrip "/" (path parsed)), n. split; [|done].
  destruct u as [|c u]; [done|].
  unfold Main.extract_video_id. rewrite Hparse. simpl.
  by rewrite Hhost.
Qed.

End MoreExtractor.

(** X10 on a URL that [urlparse] rejects and on a watch URL. *)
Lemma extract_main_of_sample_witness :
  Main.extract_video_id Stub.urlparse Stub.parse_qs (Some "http://[")
  = Ok None
  /\ Main.extract_video_id Stub.urlparse Stub.parse_qs (Some Stub.watch_url)
     = Ok (Some "dQw4w9WgXcQ").
Proof.
  split.
  - apply (extract_main_of_sample Stub.urlparse Stub.parse_qs "http://[").
    discriminate.
  - apply (extract_main_of_sample Stub.urlparse Stub.parse_qs
             Stub.watch_url).
    discriminate.
Defined.

(** X11 on the short URL of the test suite. *)
Lemma youtu_be_id_without_slash_witness :
  exists id n,
    Main.extract_video_id Stub.urlparse Stub.parse_qs (Some Stub.short_url)
    = Ok (Some id)
    /\ "/dQw4w9WgXcQ"
       = String.string_of_list_ascii (replicate n "/"%char) +:+ id
    /\ forall rest, id <> String "/" rest.
Proof.
  apply (youtu_be_id_without_slash Stub.urlparse Stub.parse_qs
           Stub.short_url
           (mkParseResult (Some "youtu.be") "/dQw4w9WgXcQ" ""));
    [discriminate | reflexivity | reflexivity].
Defined.

(** ** More on the selector *)

Section MoreSelector.

Lemma select_transcript_requested tl lang r0 rest :
  Spec.requested lang = r0 :: rest ->
  Main.select_transcript tl lang = Main.select_requested tl r0 rest.
Proof.
  intros Hlang.
  destruct lang as [[[|c s]|[|r rest']]|]; simpl in Hlang;
    try done; by simplify_eq.
Qed.

(** X12: when the caller names languages, only a [NoTranscriptFound]
    of the direct lookup starts the translation fallback: a transcript
    the lookup returns is selected as it is, any other exception it
    raises leaves the selection unchanged, and in both cases no
    translation is called. *)
Theorem direct_lookup_decides
    (tl : TranscriptList) (lang : option (string + list string))
    (r0 : string) (rest : list string) :
  Spec.requested lang = r0 :: rest ->
  find_transcript tl (r0 :: rest) <> Raise NoTranscriptFound ->
  outcome (Main.select_transcript tl lang) = find_transcript tl (r0 :: rest)
  /\ calls (Main.select_transcript tl lang) = [].
Proof.
  intros Hlang Hfind.
  rewrite (select_transcript_requested tl lang r0 rest Hlang).
  unfold Main.select_requested. run.
  by destruct (find_transcript tl (r0 :: rest)) as [t|[]].
Qed.

(** X12 on an English manual variant asked for after German, and on a
    lookup that fails on the wire. *)
Lemma direct_lookup_decides_witness :
  outcome (Main.select_transcript
             (Library.transcript_list_of [Stub.english_manual])
             (Some (inr ["de"; "en"])))
  = Ok Stub.english_manual
  /\ outcome (Main.select_transcript
               (mkTranscriptList (mkIteration [Stub.vietnamese_auto] None)
                  (fun _ => Raise (OtherException "connection reset"))
                  (fun _ => Raise NoTranscriptFound)
                  (fun _ => Raise NoTranscriptFound))
               (Some (inl "en")))
     = Raise (OtherException "connection reset").
Proof.
  split.
  - apply (direct_lookup_decides
             (Library.transcript_list_of [Stub.english_manual])
             (Some (inr ["de"; "en"])) "de" ["en"]);
      [reflexivity | discriminate].
  - apply (direct_lookup_decides
             (mkTranscriptList (mkIteration [Stub.vietnamese_auto] None)
                (fun _ => Raise (OtherException "connection reset"))
                (fun _ => Raise NoTranscriptFound)
                (fun _ => Raise NoTranscriptFound))
             (Some (inl "en")) "en" []);
      [reflexivity | discriminate].
Defined.

(** X13: in the path without a named language, an exception raised
    while scanning for a manually created variant is dropped, and the
    generated variants are tried as if the scan had found nothing; the
    same failure of the enumeration during the scan for a generated
    variant is raised. *)
Theorem default_scan_failure (tl : TranscriptList) (e : exn) :
  find_manually_created_transcript tl ["en"] = Raise NoTranscriptFound ->
  first_such (fun t => negb (is_generated t)) (transcripts tl) = Raise e ->
  Main.select_default tl
  = match find_generated_transcript tl ["en"] with
    | Ok t => Ok t
    | Raise NoTranscriptFound =>
        match List.find is_generated (yielded (transcripts tl)) with
        | Some t => Ok t
        | None => Raise e
        end
    | Raise e' => Raise e'
    end.
Proof.
  intros Hmanual Hscan. unfold Main.select_default.
  rewrite Hmanual, Hscan. simpl.
  destruct (find_generated_transcript tl ["en"]) as [t|[]]; try done.
  simpl. unfold first_such in *.
  destruct (List.find is_generated _) as [t|]; [done|].
  destruct (List.find (fun t => negb (is_generated t)) _); [done|].
  destruct (raised (transcripts tl)); [|done]. simpl. congruence.
Qed.

(** X13 on an enumeration that yields a generated variant and then
    fails, and on one that fails at once. *)
Lemma default_scan_failure_witness :
  let not_found := fun _ : list string => @Raise Transcript NoTranscriptFound in
  let e := OtherException "connection reset" in
  Main.select_default
    (mkTranscriptList (mkIteration [Stub.spanish_auto] (Some e))
       not_found not_found not_found)
  = Ok Stub.spanish_auto
  /\ Main.select_default
       (mkTranscriptList (mkIteration [] (Some e))
          not_found not_found not_found)
     = Raise e.
Proof.
  intros not_found e. split.
  - apply (default_scan_failure
             (mkTranscriptList (mkIteration [Stub.spanish_auto] (Some e))
                not_found not_found not_found) e);
      reflexivity.
  - apply (default_scan_failure
             (mkTranscriptList (mkIteration [] (Some e))
                not_found not_found not_found) e);
      reflexivity.
Defined.

End MoreSelector.

(** ** More on the request handler *)

Section MoreHandler.

Variable urlparse : string -> result ParseResult.
Variable parse_qs : string -> result (gmap string (list string)).
Variable ytt_list : string -> result TranscriptList.

Let extract := Main.extract_video_id urlparse parse_qs.
Let handler := Main.get_youtube_caption urlparse parse_qs ytt_list.

(** The one call a selection can make is the translation into the first
    named language. *)
Lemma select_transcript_translation tl lang :
  calls (Main.select_transcript tl lang) = []
  \/ exists r0 rest,
       Spec.requested lang = r0 :: rest
       /\ calls (Main.select_transcript tl lang) = [CallTranslate r0].
Proof.
  destruct lang as [[[|c s]|[|r0 rest]]|]; simpl; try by left.
  all: unfold Main.select_requested; run;
    repeat case_match; simplify_eq; simpl; eauto.
Qed.

(** A run on a usable URL, a listing, a selection and a fetch that all
    succeed: what is left is the assembly of the payload. *)
Lemma handler_after_fetch request vid tl t fetched :
  extract (Some (url request)) = Ok (Some vid) -> vid <> "" ->
  ytt_list vid = Ok tl ->
  outcome (Main.select_transcript tl (language_param request)) = Ok t ->
  fetch t = Ok fetched ->
  handler request []
  = (match Main.assemble request vid tl fetched with
     | Ok p => Ok p
     | Raise e => Raise (Main.on_exception e)
     end,
     (CallList vid
      :: calls (Main.select_transcript tl (language_param request)))
     ++ [CallFetch]).
Proof.
  intros Hextract Hvid Hlist Hsel Hfetch. unfold handler.
  rewrite handler_run, body_run. fold extract. rewrite Hextract.
  destruct vid as [|c vid]; [done|]. rewrite Hlist. cbv zeta.
  rewrite Hsel, Hfetch. simpl.
  by destruct (Main.assemble _ _ _ _).
Qed.

Lemma handler_Ok request p :
  outcome (handler request) = Ok p ->
  exists vid tl t fetched,
    extract (Some (url request)) = Ok (Some vid) /\ vid <> ""
    /\ ytt_list vid = Ok tl
    /\ outcome (Main.select_transcript tl (language_param request)) = Ok t
    /\ fetch t = Ok fetched
    /\ Main.assemble request vid tl fetched = Ok p.
Proof.
  intros Hp. apply body_Ok. unfold outcome in *. unfold handler in Hp.
  rewrite handler_run in Hp.
  by destruct (Main.body _ _ _ request []) as [[p'|e] log]; simplify_eq/=.
Qed.

Lemma assemble_Ok request vid tl fetched p :
  Main.assemble request vid tl fetched = Ok p ->
  let full_text := Py.join " " (snippet_text <$> snippets fetched) in
  exists all_chunks page,
    Main.chunk_text_opt full_text (chunk_size request) = Ok all_chunks
    /\ Main.paginate_chunks_opt all_chunks
         (start_index request) (max_chunks request) = Ok page
    /\ raised (transcripts tl) = None
    /\ p = mkPayload vid (Py.len full_text)
             (fetched_language fetched) (fetched_language_code fetched)
             (fetched_is_generated fetched)
             (Main.lang_info <$> yielded (transcripts tl)) page.
Proof.
  unfold Main.assemble, iterate. intros Hasm. simpl.
  destruct (Main.chunk_text_opt _ (chunk_size request))
    as [all_chunks|] eqn:Hchunks; [|done].
  simpl in Hasm.
  destruct (Main.paginate_chunks_opt all_chunks _ _)
    as [page|] eqn:Hpage; [|done].
  simpl in Hasm.
  destruct (raised (transcripts tl)) eqn:Hraised; [done|].
  simpl in Hasm. injection Hasm as <-. by exists all_chunks, page.
Qed.

(** X14: a request that succeeds has called the service exactly once
    for the listing, with the id extracted from the URL, and exactly
    once for the fetch, in this order, with one translation in between
    only when the caller named a language, and then into the first one
    named; the payload carries that id. *)
Theorem success_calls request p :
  outcome (handler request) = Ok p ->
  extract (Some (url request)) = Ok (Some (video_id p))
  /\ video_id p <> ""
  /\ (calls (handler request) = [CallList (video_id p); CallFetch]
      \/ exists r0 rest,
           Spec.requested (language_param request) = r0 :: rest
           /\ calls (handler request)
              = [CallList (video_id p); CallTranslate r0; CallFetch]).
Proof.
  intros Hp.
  destruct (handler_Ok request p Hp)
    as (vid & tl & t & fetched & Hextract & Hvid & Hlist & Hsel & Hfetch
        & Hasm).
  destruct (assemble_Ok _ _ _ _ _ Hasm) as (cs & page & _ & _ & _ & ->).
  simpl. split; [done|]. split; [done|].
  assert (calls (handler request)
          = (CallList vid
             :: calls (Main.select_transcript tl (language_param request)))
            ++ [CallFetch]) as ->.
  { unfold calls at 1.
    by rewrite (handler_after_fetch request vid tl t fetched). }
  destruct (select_transcript_translation tl (language_param request))
    as [-> | (r0 & rest & Hlang & ->)]; [by left|].
  right. by exists r0, rest.
Qed.

(** X15: in a response the three fields on the selected language are
    those of the fetched transcript, and [available_languages] has one
    entry for each variant of the listing, in its order, with the
    variant's language, code and two flags; the entry of a translatable
    variant carries the codes of its translation languages, in their
    order, and the entry of any other variant carries none. *)
Theorem payload_metadata request p :
  outcome (handler request) = Ok p ->
  exists tl t fetched,
    ytt_list (video_id p) = Ok tl
    /\ outcome (Main.select_transcript tl (language_param request)) = Ok t
    /\ fetch t = Ok fetched
    /\ selected_language p = fetched_language fetched
    /\ selected_language_code p = fetched_language_code fetched
    /\ payload_is_generated p = fetched_is_generated fetched
    /\ Forall2
         (fun entry variant =>
            info_language entry = language variant
            /\ info_language_code entry = language_code variant
            /\ info_is_generated entry = is_generated variant
            /\ info_is_translatable entry = is_translatable variant
            /\ (is_translatable variant = true ->
                info_translation_languages entry
                = Some (translation_language_code
                          <$> translation_languages variant))
            /\ (is_translatable variant = false ->
                info_translation_languages entry = None))
         (available_languages p) (yielded (transcripts tl)).
Proof.
  intros Hp.
  destruct (handler_Ok request p Hp)
    as (vid & tl & t & fetched & Hextract & Hvid & Hlist & Hsel & Hfetch
        & Hasm).
  destruct (assemble_Ok _ _ _ _ _ Hasm) as (cs & page & _ & _ & _ & ->).
  exists tl, t, fetched. simpl.
  split; [done|]. split; [done|]. split; [done|].
  split; [done|]. split; [done|]. split; [done|].
  apply Forall2_fmap_l, Forall_Forall2_diag, Forall_forall.
  intros v _. unfold Main.lang_info. simpl.
  by destruct (is_translatable v).
Qed.

(** X16: when the joined text is empty, or the chunk size is an integer
    that is not positive, a request whose calls succeed is answered
    with an empty page, [total_chunks] 0 and no [next_index], whatever
    [start_index] and [max_chunks] are, [null] included;
    [total_characters] is still the length of the text. *)
Theorem empty_page request vid tl t fetched :
  extract (Some (url request)) = Ok (Some vid) -> vid <> "" ->
  ytt_list vid = Ok tl ->
  outcome (Main.select_transcript tl (language_param request)) = Ok t ->
  fetch t = Ok fetched ->
  raised (transcripts tl) = None ->
  let full_text := Py.join " " (snippet_text <$> snippets fetched) in
  full_text = "" \/ (exists n, chunk_size request = Some n /\ n <= 0) ->
  exists p,
    outcome (handler request) = Ok p
    /\ page_data p = mkPage [] None 0
    /\ total_characters p = Py.len full_text.
Proof.
  intros Hextract Hvid Hlist Hsel Hfetch Hiter full_text Hempty.
  unfold outcome.
  rewrite (handler_after_fetch request vid tl t fetched) by done.
  unfold Main.assemble, iterate. fold full_text. rewrite Hiter.
  assert (Main.chunk_text_opt full_text (chunk_size request) = Ok [])
    as ->.
  { destruct Hempty as [-> | (n & -> & Hn)].
    - by destruct (chunk_size request).
    - simpl. unfold Main.chunk_text.
      replace (n <=? 0) with true by (symmetry; apply Z.leb_le; lia).
      by rewrite orb_true_r. }
  simpl. by eexists.
Qed.

(** X17: with a text that is not empty, a [null] chunk size, or a
    positive chunk size with a [null] [start_index] or [max_chunks], is
    answered with status 500, after the transcript has been fetched. *)
Theorem null_parameter request vid tl t fetched :
  extract (Some (url request)) = Ok (Some vid) -> vid <> "" ->
  ytt_list vid = Ok tl ->
  outcome (Main.select_transcript tl (language_param request)) = Ok t ->
  fetch t = Ok fetched ->
  Py.join " " (snippet_text <$> snippets fetched) <> "" ->
  chunk_size request = None
  \/ (exists n, chunk_size request = Some n /\ 0 < n
      /\ (start_index request = None \/ max_chunks request = None)) ->
  (exists detail,
     outcome (handler request) = Raise (HTTPException 500 detail))
  /\ last (calls (handler request)) = Some CallFetch.
Proof.
  intros Hextract Hvid Hlist Hsel Hfetch Htext Hnull.
  unfold outcome, calls.
  rewrite (handler_after_fetch request vid tl t fetched) by done.
  simpl. split.
  - unfold Main.assemble.
    set (full_text := Py.join " " (snippet_text <$> snippets fetched))
      in *.
    destruct Hnull as [-> | (n & -> & Hn & Hnone)].
    + simpl. destruct full_text; [done|]. simpl. by eexists.
    + simpl. rewrite chunk_text_positive by done. simpl.
      pose proof (ceil_div_pos (Py.len full_text) n) as Hpos.
      assert (0 < Py.len full_text)
        by (unfold Py.len; destruct full_text; [done | simpl; lia]).
      specialize (Hpos ltac:(done) Hn).
      destruct (Z.to_nat (Spec.ceil_div (Py.len full_text) n))
        as [|m] eqn:Hm; [lia|].
      unfold Main.paginate_chunks_opt. simpl.
      destruct Hnone as [-> | ->].
      * simpl. by eexists.
      * destruct (start_index request); simpl; by eexists.
  - rewrite app_comm_cons. apply last_snoc.
Qed.

End MoreHandler.

(** X16 on a chunk size of 0 with [null] for the two other
    parameters. *)
Lemma empty_page_witness :
  exists p,
    outcome
      (Main.get_youtube_caption Stub.urlparse Stub.parse_qs
         (Stub.ytt_list [Stub.english_manual])
         (mkRequest Stub.watch_url (Some 0) None None None))
    = Ok p
    /\ page_data p = mkPage [] None 0
    /\ total_characters p = Py.len "Hello world this is a test".
Proof.
  apply (empty_page Stub.urlparse Stub.parse_qs
           (Stub.ytt_list [Stub.english_manual])
           (mkRequest Stub.watch_url (Some 0) None None None)
           "dQw4w9WgXcQ"
           (Library.transcript_list_of [Stub.english_manual])
           Stub.english_manual
           (mkFetched [mkSnippet "Hello world"; mkSnippet "this is a test"]
              "English" "en" false));
    [reflexivity | discriminate | reflexivity | reflexivity
    | reflexivity | reflexivity |].
  right. exists 0. split; [reflexivity | lia].
Defined.

(** X17 on a [null] chunk size and on a [null] [max_chunks]. *)
Lemma null_parameter_witness :
  (exists detail,
     outcome
       (Main.get_youtube_caption Stub.urlparse Stub.parse_qs
          (Stub.ytt_list [Stub.english_manual])
          (mkRequest Stub.watch_url None (Some 2) (Some 0) None))
     = Raise (HTTPException 500 detail))
  /\ (exists detail,
        outcome
          (Main.get_youtube_caption Stub.urlparse Stub.parse_qs
             (Stub.ytt_list [Stub.english_manual])
             (mkRequest Stub.watch_url (Some 10) None (Some 0) None))
        = Raise (HTTPException 500 detail)).
Proof.
  split.
  - apply (null_parameter Stub.urlparse Stub.parse_qs
             (Stub.ytt_list [Stub.english_manual])
             (mkRequest Stub.watch_url None (Some 2) (Some 0) None)
             "dQw4w9WgXcQ"
             (Library.transcript_list_of [Stub.english_manual])
             Stub.english_manual
             (mkFetched
                [mkSnippet "Hello world"; mkSnippet "this is a test"]
                "English" "en" false));
      [reflexivity | discriminate | reflexivity | reflexivity
      | reflexivity | discriminate | by left].
  - apply (null_parameter Stub.urlparse Stub.parse_qs
             (Stub.ytt_list [Stub.english_manual])
             (mkRequest Stub.watch_url (Some 10) None (Some 0) None)
             "dQw4w9WgXcQ"
             (Library.transcript_list_of [Stub.english_manual])
             Stub.english_manual
             (mkFetched
                [mkSnippet "Hello world"; mkSnippet "this is a test"]
                "English" "en" false));
      [reflexivity | discriminate | reflexivity | reflexivity
      | reflexivity | discriminate |].
    right. exists 10. split; [reflexivity|]. split; [lia | by right].
Defined.

(** X14 on scenario 5: listing, translation into English, fetch. *)
Lemma success_calls_witness :
  let request := Stub.request (Some (inl "en")) in
  let run :=
    Main.get_youtube_caption Stub.urlparse Stub.parse_qs
      (Stub.ytt_list [Stub.vietnamese_auto]) request in
  exists p,
    outcome run = Ok p
    /\ Main.extract_video_id Stub.urlparse Stub.parse_qs (Some (url request))
       = Ok (Some (video_id p))
    /\ video_id p <> ""
    /\ (calls run = [CallList (video_id p); CallFetch]
        \/ exists r0 rest,
             Spec.requested (language_param request) = r0 :: rest
             /\ calls run
                = [CallList (video_id p); CallTranslate r0; CallFetch]).
Proof.
  intros request run. eexists. split; [reflexivity|].
  apply (success_calls Stub.urlparse Stub.parse_qs
           (Stub.ytt_list [Stub.vietnamese_auto]) request).
  reflexivity.
Defined.

(** X15 on a Spanish variant that is not translatable and the
    Vietnamese variant of scenario 5, English requested: the response
    names the language of the translation, and lists both variants,
    the second with its translation language. *)
Lemma payload_metadata_witness :
  let request := Stub.request (Some (inl "en")) in
  let ytt_list := Stub.ytt_list [Stub.spanish_auto; Stub.vietnamese_auto] in
  exists p,
    outcome
      (Main.get_youtube_caption Stub.urlparse Stub.parse_qs ytt_list
         request)
    = Ok p
    /\ selected_language_code p = "en"
    /\ available_languages p
       = [mkLangInfo "Spanish" "es" true false None;
          mkLangInfo "Vietnamese" "vi" true true (Some ["en"])]
    /\ exists tl t fetched,
         ytt_list (video_id p) = Ok tl
         /\ outcome (Main.select_transcript tl (language_param request))
            = Ok t
         /\ fetch t = Ok fetched
         /\ selected_language p = fetched_language fetched
         /\ selected_language_code p = fetched_language_code fetched
         /\ payload_is_generated p = fetched_is_generated fetched
         /\ Forall2
              (fun entry variant =>
                 info_language entry = language variant
                 /\ info_language_code entry = language_code variant
                 /\ info_is_generated entry = is_generated variant
                 /\ info_is_translatable entry = is_translatable variant
                 /\ (is_translatable variant = true ->
                     info_translation_languages entry
                     = Some (translation_language_code
                               <$> translation_languages variant))
                 /\ (is_translatable variant = false ->
                     info_translation_languages entry = None))
              (available_languages p) (yielded (transcripts tl)).
Proof.
  intros request ytt_list. eexists. split; [reflexivity|].
  split; [reflexivity|]. split; [reflexivity|].
  apply (payload_metadata Stub.urlparse Stub.parse_qs ytt_list request).
  reflexivity.
Defined.

